(** * Click analytics of the URL shortener: the link model and its routes

    A shallow embedding of

    - the link model (schema defaults, the [pre('save')] hook,
      [recordClick], [getAnalyticsSummary], [getTopFromMaps],
      [checkExpiration]),
    - the redirect route [GET /:shortCode] and the dashboard route
      [GET /stats/summary] of [backend/routes/urls.js],
    - the second [GET /stats/summary] route, written against the small
      [backend/models/Url.js] model,

    followed by the properties established about them.

    Conventions of the embedding.
    - A [Date] is its epoch time in milliseconds ([Z]); an optional
      field that may be [undefined] is an [option].
    - Counters are [Z]; quotients are exact rationals ([Q], reduced), so
      the rounding error of IEEE doubles is not represented, but the
      results of a division by zero ([NaN], [Infinity]) are.  A figure
      that the code rounds is rounded from the exact value here; what
      is stated about it holds up to a hundredth.
    - JavaScript arrays are lists: [push] appends and [slice(-n)] keeps
      the last [n] elements.  The arrays of a document are document
      arrays: [push] stores a cast copy of its argument, so a later
      write through the local variable does not reach the element,
      while an element that [find] returns is the element itself.
    - [save] validates the whole document first; when a validator or a
      cast fails the hook does not run and the collection keeps what it
      held, while the changes made to the document object remain.
    - A [Map] keeps insertion order, so it is an association list.
    - The clock and the library calls (geoip, user-agent parser,
      [parseInt], QR encoder, local calendar arithmetic) are
      parameters. *)

From Stdlib Require Import ZArith QArith Qabs Qround Ascii Lia Lqa.
From stdpp Require Import base list sorting strings gmap pretty.

Local Open Scope Z_scope.

Set Default Proof Using "Type".

(** ** JavaScript values *)

Module Js.

(** Numbers: a finite value, [NaN] or a signed [Infinity]. *)
Inductive number : Type :=
| Num (q : Q)
| NaN
| Infinity (negative : bool).

(** [a / b] on finite operands. *)
Definition div (a b : Q) : number :=
  if Qeq_bool b 0 then
    if Qeq_bool a 0 then NaN else Infinity (Qle_bool a 0)
  else Num (Qred (a / b)).

(** Truthiness of an optional string: [undefined] and [''] are falsy. *)
Definition truthy (s : option string) : bool :=
  match s with
  | Some s => negb (String.eqb s "")
  | None => false
  end.

(** [a || b] on an optional string with a string default. *)
Definition or_else (s : option string) (d : string) : string :=
  match s with
  | Some s => if String.eqb s "" then d else s
  | None => d
  end.

(** What [parseInt] returns: an integer or [NaN]. *)
Inductive parsed : Type :=
| Int (n : Z)
| NotANumber.

(** [Math.round] of the exact value: the nearest integer, halves towards
    plus infinity. *)
Definition round (q : Q) : Z := Qfloor (q + (1 # 2)).

(** [Math.round(x * 100) / 100] of the exact value; a double that the
    arithmetic has left a last digit away from a half may round to the
    neighbouring hundredth. *)
Definition round2 (q : Q) : Q := Qred (inject_Z (round (q * 100)) / 100).

(** The decimal digits of a natural number, at least [2] of them. *)
Definition two_digits (n : N) : string :=
  if (n <? 10)%N then "0" +:+ pretty n else pretty n.

(** [x.toFixed(2)] of the exact value: [n] is the integer nearest to
    [100 x] (the larger one of two), printed with two digits after the
    point; a negative [x] prints the sign and then its absolute
    value. *)
Definition toFixed2 (x : Q) : string :=
  let n := Z.to_N (Qfloor (Qabs x * 100 + (1 # 2))) in
  (if Qle_bool 0 x then "" else "-")
    +:+ pretty (n / 100)%N +:+ "." +:+ two_digits (n mod 100)%N.

(** What a summary field may hold. *)
Inductive value : Type :=
| VNumber (n : number)
| VString (s : string).

End Js.

(** Splits a goal made of conjunctions, equivalences and negations over
    constructors and integer comparisons, and closes the pieces. *)
Ltac settle :=
  repeat (split || intro);
  repeat match goal with H : _ /\ _ |- _ => destruct H end;
  try discriminate; try lia; try congruence; try reflexivity.

(** ** Arrays and [Map]s *)

(** [arr.findIndex(p)]; [None] stands for [-1]. *)
Fixpoint findIndex {A : Type} (p : A -> bool) (arr : list A) : option nat :=
  match arr with
  | [] => None
  | x :: rest => if p x then Some 0%nat else S <$> findIndex p rest
  end.

(** [arr.slice(-n)]: the last [n] elements, all of them when there are
    fewer. *)
Definition slice_last {A : Type} (n : nat) (arr : list A) : list A :=
  drop (length arr - n) arr.

(** [Map.prototype.get]. *)
Fixpoint map_get (k : string) (m : list (string * Z)) : option Z :=
  match m with
  | [] => None
  | (k', v) :: rest => if String.eqb k' k then Some v else map_get k rest
  end.

(** [Map.prototype.set]: an existing key keeps its place, a new key goes
    to the end. *)
Fixpoint map_set (k : string) (v : Z) (m : list (string * Z)) : list (string * Z) :=
  match m with
  | [] => [(k, v)]
  | (k', v') :: rest =>
      if String.eqb k' k then (k', v) :: rest else (k', v') :: map_set k v rest
  end.

(** [m.set(k, (m.get(k) || 0) + n)]. *)
Definition map_add (k : string) (n : Z) (m : list (string * Z)) : list (string * Z) :=
  map_set k (default 0 (map_get k m) + n) m.

(** [reduce((sum, x) => sum + f(x), 0)]. *)
Definition sum_with {A : Type} (f : A -> Z) (arr : list A) : Z :=
  fold_left (fun sum x => sum + f x) arr 0.

Definition sumQ_with {A : Type} (f : A -> Q) (arr : list A) : Q :=
  fold_left (fun sum x => Qred (sum + f x)) arr 0%Q.

(** [sort((a, b) => key(b) - key(a))]: descending by [key]; the sort is
    stable, so elements with equal keys keep their order. *)
Fixpoint insert_desc {A : Type} (key : A -> Z) (x : A) (sorted : list A) : list A :=
  match sorted with
  | [] => [x]
  | y :: rest =>
      if key x <? key y then y :: insert_desc key x rest else x :: y :: rest
  end.

Definition sort_desc {A : Type} (key : A -> Z) (arr : list A) : list A :=
  foldr (insert_desc key) [] arr.

(** [sort((a, b) => key(a) - key(b))]: ascending by [key], stable; it is
    the descending sort by the opposite key. *)
Definition sort_asc {A : Type} (key : A -> Z) (arr : list A) : list A :=
  sort_desc (fun x => - key x) arr.

(** ** The link schema *)

Inductive Status : Type := active | inactive | expired | blocked.

Inductive RedirectType : Type := direct | delayed | interstitial.

Record Settings : Type := {
  trackReferrer : bool;
  trackLocation : bool;
  trackDeviceInfo : bool;
  redirectType : RedirectType;
  redirectDelay : Z
}.

(** What [geoip.lookup] answers; [geo_ll] is [[latitude, longitude]]. *)
Record Geo : Type := {
  geo_country : string;
  geo_city : string;
  geo_region : string;
  geo_timezone : string;
  geo_ll : Q * Q
}.

(** The [data] object handed to [recordClick].  A field that is not set
    on the object is [None]. *)
Record ClickData : Type := {
  timestamp : Z;
  ipAddress : option string;
  userAgent : option string;
  referrer : option string;
  country : option string;
  city : option string;
  region : option string;
  timezone : option string;
  location : option (Q * Q);
  device : option string;
  browser : option string;
  browserVersion : option string;
  os : option string;
  platform : option string;
  language : option string;
  timeOnPage : option Js.parsed;
  exitPage : option string
}.

(** An [analyticsSchema] entry as it reads once the schema defaults have
    filled the fields that were not set ([timeOnPage] of an event that
    the schema accepts, see [entry_valid]). *)
Record AnalyticsEntry : Type := {
  a_timestamp : Z;
  a_ipAddress : string;
  a_referrer : string;
  a_country : string;
  a_city : string;
  a_region : string;
  a_timezone : string;
  a_coordinates : Q * Q;
  a_device : string;
  a_browser : string;
  a_browserVersion : string;
  a_os : string;
  a_platform : string;
  a_language : string;
  a_timeOnPage : Z;
  a_exitPage : string
}.

Definition analyticsSchema (d : ClickData) : AnalyticsEntry :=
  {| a_timestamp := timestamp d;
     a_ipAddress := default "" (ipAddress d);
     a_referrer := default "" (referrer d);
     a_country := default "" (country d);
     a_city := default "" (city d);
     a_region := default "" (region d);
     a_timezone := default "" (timezone d);
     a_coordinates := default (0%Q, 0%Q) (location d);
     a_device := default "other" (device d);
     a_browser := default "" (browser d);
     a_browserVersion := default "" (browserVersion d);
     a_os := default "" (os d);
     a_platform := default "" (platform d);
     a_language := default "" (language d);
     a_timeOnPage := match timeOnPage d with Some (Js.Int n) => n | _ => 0 end;
     a_exitPage := default "" (exitPage d) |}.

(** One element of [dailyStats]. *)
Record DailyStat : Type := {
  date : Z;
  day_clicks : Z;
  day_uniqueVisitors : Z;
  countries : list (string * Z);
  devices : list (string * Z);
  browsers : list (string * Z);
  referrers : list (string * Z);
  timeOnPage_total : Z;
  timeOnPage_count : Z;
  bounceRate : Z
}.

(** One element of the [uniqueVisitors] ledger. *)
Record Visitor : Type := {
  visitor_ip : option string;
  firstVisit : Z;
  lastVisit : Z;
  totalVisits : Z;
  visitor_averageTimeOnPage : Z
}.

(** The link document.  The fields [user], [title], [description],
    [tags], [customDomain] and [password] are written by no method or
    hook of the model and are left out. *)
Record Url : Type := {
  originalUrl : string;
  shortCode : string;
  qrCode : option string;
  customAlias : option string;
  status : Status;
  expiresAt : option Z;
  isExpired : bool;
  clicks : Z;
  uniqueClicks : Z;
  analytics : list ClickData;
  dailyStats : list DailyStat;
  uniqueVisitors : list Visitor;
  settings : Settings;
  createdAt : Z;
  updatedAt : Z
}.

(** The schema defaults of [settings]. *)
Definition default_settings : Settings :=
  {| trackReferrer := true; trackLocation := true; trackDeviceInfo := true;
     redirectType := direct; redirectDelay := 0 |}.

(** A document as [new Url({originalUrl, shortCode, customAlias,
    expiresAt, settings})] builds it at time [now]: every counter and
    array takes its schema default. *)
Definition new_Url (now : Z) (target code : string) (alias : option string)
    (expires : option Z) (s : Settings) : Url :=
  {| originalUrl := target; shortCode := code; qrCode := None;
     customAlias := alias; status := active; expiresAt := expires;
     isExpired := false; clicks := 0; uniqueClicks := 0; analytics := [];
     dailyStats := []; uniqueVisitors := []; settings := s;
     createdAt := now; updatedAt := now |}.

(** Field updates used by the methods below. *)
Definition with_expiry_state (u : Url) (flag : bool) (st : Status) (qr : option string)
    (updated : Z) : Url :=
  {| originalUrl := originalUrl u; shortCode := shortCode u; qrCode := qr;
     customAlias := customAlias u; status := st; expiresAt := expiresAt u;
     isExpired := flag; clicks := clicks u; uniqueClicks := uniqueClicks u;
     analytics := analytics u; dailyStats := dailyStats u;
     uniqueVisitors := uniqueVisitors u; settings := settings u;
     createdAt := createdAt u; updatedAt := updated |}.

Definition with_counters (u : Url) (c uc : Z) (log : list ClickData)
    (stats : list DailyStat) (ledger : list Visitor) : Url :=
  {| originalUrl := originalUrl u; shortCode := shortCode u; qrCode := qrCode u;
     customAlias := customAlias u; status := status u; expiresAt := expiresAt u;
     isExpired := isExpired u; clicks := c; uniqueClicks := uc;
     analytics := log; dailyStats := stats; uniqueVisitors := ledger;
     settings := settings u; createdAt := createdAt u; updatedAt := updatedAt u |}.

Definition with_geo (d : ClickData) (geo : Geo) : ClickData :=
  {| timestamp := timestamp d; ipAddress := ipAddress d; userAgent := userAgent d;
     referrer := referrer d;
     country := Some (geo_country geo); city := Some (geo_city geo);
     region := Some (geo_region geo); timezone := Some (geo_timezone geo);
     location := Some ((geo_ll geo).2, (geo_ll geo).1);
     device := device d; browser := browser d; browserVersion := browserVersion d;
     os := os d; platform := platform d; language := language d;
     timeOnPage := timeOnPage d; exitPage := exitPage d |}.

(** *** The validators of the schema *)

(** The characters of [/^[a-zA-Z0-9-_]+$/]. *)
Definition alias_char (c : ascii) : bool :=
  let n := nat_of_ascii c in
  ((97 <=? n) && (n <=? 122) || (65 <=? n) && (n <=? 90) || (48 <=? n) && (n <=? 57)
   || (n =? 45) || (n =? 95))%nat.

(** The validator of [customAlias]: [!v || /^[a-zA-Z0-9-_]+$/.test(v)]. *)
Definition alias_valid (v : string) : bool :=
  String.eqb v "" || forallb alias_char (String.list_ascii_of_string v).

(** The validation of the paths of the document itself at time [now]:
    [originalUrl] is required, and the validators of [customAlias] and
    of [expiresAt] ([!v || v > new Date()]) hold. *)
Definition valid_new (now : Z) (url : Url) : bool :=
  negb (String.eqb (originalUrl url) "")
  && alias_valid (default "" (customAlias url))
  && match expiresAt url with
     | Some t => now <? t
     | None => true
     end.

(** The [enum] of [device] in [analyticsSchema]. *)
Definition device_valid (d : option string) : bool :=
  match d with
  | Some name =>
      String.eqb name "desktop" || String.eqb name "mobile" || String.eqb name "tablet"
      || String.eqb name "other"
  | None => true
  end.

(** An event that [analyticsSchema] accepts: [device] is in its [enum]
    and [timeOnPage] casts to a Number, which [NaN] does not. *)
Definition entry_valid (d : ClickData) : bool :=
  device_valid (device d)
  && match timeOnPage d with
     | Some Js.NotANumber => false
     | _ => true
     end.

(** The validation that [save] runs at time [now]: the paths of the
    document and the entries of its log. *)
Definition validates (now : Z) (u : Url) : bool :=
  valid_new now u && forallb entry_valid (analytics u).

(** ** The second [GET /stats/summary] route, over [backend/models/Url.js] *)

Module SmallModel.

(** An element of [analytics] in [backend/models/Url.js]. *)
Record Visit : Type := {
  visit_timestamp : Z;
  visits : Z;
  visit_referrer : option string;
  visit_userAgent : option string
}.

(** The document of [backend/models/Url.js] (without its owner). *)
Record Url : Type := {
  originalUrl : string;
  shortUrl : string;
  clicks : Z;
  lastClickedAt : option Z;
  expiresAt : option Z;
  createdAt : Z;
  analytics : list Visit
}.

Record Stats : Type := {
  totalUrls : Z;
  totalClicks : Z;
  activeUrls : Z;
  urlsGrowth : Q;
  clicksGrowth : Q
}.

Section Routes.

(** [d.setMonth(d.getMonth() - 1)] in the local calendar. *)
Variable month_before : Z -> Z.
(** [d.setDate(d.getDate() - days)] in the local calendar. *)
Variable days_before : Z -> Z -> Z.

(** [countDocuments({ user, createdAt: { $lte: lastMonth } })]. *)
Definition count_created_until (lastMonth : Z) (urls : list Url) : Z :=
  Z.of_nat (length (List.filter (fun u => createdAt u <=? lastMonth) urls)).

(** The [$match]/[$group] pipeline: no group when nothing matches,
    else the one group with the sum of [clicks]. *)
Definition aggregate_clicks (lastMonth : Z) (urls : list Url) : list Z :=
  match List.filter (fun u => createdAt u <=? lastMonth) urls with
  | [] => []
  | older => [sum_with clicks older]
  end.

(** [lastMonthUrls === 0 ? 100
      : ((totalUrls - lastMonthUrls) / lastMonthUrls) * 100]. *)
Definition urls_growth (total lastMonthUrls : Z) : Q :=
  if lastMonthUrls =? 0 then 100%Q
  else Qred (inject_Z (total - lastMonthUrls) / inject_Z lastMonthUrls * 100).

(** [lastMonthClicks.length === 0 ? 100
      : ((totalClicks - lastMonthClicks[0]?.totalClicks || 0)
         / (lastMonthClicks[0]?.totalClicks || 1)) * 100];
    the subtraction binds tighter than [||]. *)
Definition clicks_growth (total : Z) (lastMonthClicks : list Z) : Q :=
  match lastMonthClicks with
  | [] => 100%Q
  | base :: _ =>
      Qred (inject_Z (total - base) / inject_Z (if base =? 0 then 1 else base) * 100)
  end.

(** [router.get('/stats/summary')] at time [now], over the documents
    [urls] of the user. *)
Definition stats_summary (now : Z) (urls : list Url) : Stats :=
  let total := Z.of_nat (length urls) in
  let total_clicks := sum_with clicks urls in
  let thirtyDaysAgo := days_before now 30 in
  let lastMonth := month_before now in
  {| totalUrls := total;
     totalClicks := total_clicks;
     activeUrls :=
       Z.of_nat
         (length
            (List.filter
               (fun u =>
                  match lastClickedAt u with
                  | Some t => thirtyDaysAgo <=? t
                  | None => false
                  end)
               urls));
     urlsGrowth :=
       Js.round2 (urls_growth total (count_created_until lastMonth urls));
     clicksGrowth :=
       Js.round2 (clicks_growth total_clicks (aggregate_clicks lastMonth urls)) |}.

(** [new URL(s)] does not throw. *)
Variable URL_valid : string -> bool.
(** [new Date(s)]; [None] for an invalid date. *)
Variable Date_parse : string -> option Z.

(** *** [POST /:shortUrl/click] *)

Inductive ClickAnswer : Type :=
| ClickNotFound               (* 404 *)
| ClickGone                   (* 410 *)
| ClickOk (target : string).  (* 200, { originalUrl } *)

(** [url.expiresAt && new Date() > url.expiresAt]. *)
Definition expired_at (now : Z) (url : Url) : bool :=
  match expiresAt url with
  | Some t => t <? now
  | None => false
  end.

(** The document after the handler counted the click. *)
Definition clicked (now : Z) (referrer user_agent : option string) (url : Url) : Url :=
  {| originalUrl := originalUrl url; shortUrl := shortUrl url;
     clicks := clicks url + 1; lastClickedAt := Some now;
     expiresAt := expiresAt url; createdAt := createdAt url;
     analytics :=
       analytics url ++
       [{| visit_timestamp := now; visits := 1;
           visit_referrer := Some (Js.or_else referrer "Direct");
           visit_userAgent := user_agent |}] |}.

(** [router.post('/:shortUrl/click')] at time [now] over the collection
    [db]; [referrer] and [user_agent] are the two headers it reads. *)
Definition post_click (now : Z) (code : string) (referrer user_agent : option string)
    (db : list Url) : ClickAnswer * list Url :=
  match findIndex (fun u => String.eqb (shortUrl u) code) db with
  | None => (ClickNotFound, db)
  | Some i =>
      match db !! i with
      | None => (ClickNotFound, db)
      | Some url =>
          if expired_at now url then (ClickGone, db)
          else (ClickOk (originalUrl url), <[i := clicked now referrer user_agent url]> db)
      end
  end.

(** *** [POST /] *)

Record CreateBody : Type := {
  body_originalUrl : option string;
  body_customAlias : option string;
  body_expiresAt : option string
}.

Inductive CreateAnswer : Type :=
| Created (url : Url)          (* 201 *)
| BadRequest (error : string)  (* 400 *)
| CreateFailed.                (* 500, from the catch block *)

(** The document that the handler builds; [fresh] is what [nanoid(8)]
    returns and [expires] the date cast of [expiresAt]. *)
Definition built (now : Z) (fresh target : string) (body : CreateBody)
    (expires : option Z) : Url :=
  {| originalUrl := target;
     shortUrl := Js.or_else (body_customAlias body) fresh;
     clicks := 0; lastClickedAt := None; expiresAt := expires;
     createdAt := now; analytics := [] |}.

(** [url.save()] of a new document: the required strings are not empty
    and the unique index on [shortUrl] admits the document. *)
Definition insertable (url : Url) (db : list Url) : bool :=
  negb (String.eqb (originalUrl url) "") && negb (String.eqb (shortUrl url) "")
  && negb (existsb (fun u => String.eqb (shortUrl u) (shortUrl url)) db).

(** [router.post('/')] at time [now] over the collection [db]. *)
Definition post_create (now : Z) (fresh : string) (body : CreateBody) (db : list Url)
    : CreateAnswer * list Url :=
  match body_originalUrl body with
  | None => (BadRequest "Invalid URL", db)
  | Some target =>
      if negb (URL_valid target) then (BadRequest "Invalid URL", db)
      else if Js.truthy (body_customAlias body)
              && existsb (fun u => String.eqb (shortUrl u)
                                     (default "" (body_customAlias body))) db
      then (BadRequest "Custom alias already in use", db)
      else
        let expires :=
          if Js.truthy (body_expiresAt body)
          then Some (Date_parse (default "" (body_expiresAt body)))
          else None in
        match expires with
        | Some None => (CreateFailed, db)
        | _ =>
            let url := built now fresh target body (mjoin expires) in
            if insertable url db then (Created url, db ++ [url])
            else (CreateFailed, db)
        end
  end.

(** *** [GET /:id/analytics] *)

(** The answer of [router.get('/:id/analytics')] at time [now] for the
    document [url] that the query found. *)
Definition get_analytics (now : Z) (url : Url) : list Visit :=
  sort_asc visit_timestamp
    (List.filter (fun item => days_before now 30 <=? visit_timestamp item)
       (analytics url)).

End Routes.

End SmallModel.

(** ** The methods of the link model and the routes over it *)

Section Service.

(** [geoip.lookup]. *)
Variable geoip_lookup : string -> option Geo.
(** [d.setHours(0, 0, 0, 0)]: local midnight of the day of [d]. *)
Variable local_midnight : Z -> Z.
(** [d.setDate(d.getDate() - days)] in the local calendar. *)
Variable days_before : Z -> Z -> Z.
(** [d.setMonth(d.getMonth() - 1)] in the local calendar. *)
Variable month_before : Z -> Z.
(** [QRCode.toDataURL]; [None] when it throws. *)
Variable QRCode_toDataURL : string -> option string.
(** [process.env.BASE_URL || 'http://localhost:5000']. *)
Variable BASE_URL : string.

(** [urlSchema.pre('save', ...)], run at time [now]. *)
Definition pre_save (now : Z) (u : Url) : Url :=
  let flag :=
    match expiresAt u with
    | Some t => t <? now
    | None => isExpired u
    end in
  let st :=
    match expiresAt u with
    | Some t => if t <? now then expired else status u
    | None => status u
    end in
  let qr :=
    if Js.truthy (qrCode u) then qrCode u
    else match QRCode_toDataURL (BASE_URL +:+ "/" +:+ shortCode u) with
         | Some code => Some code
         | None => qrCode u
         end in
  with_expiry_state u flag st qr now.

(** [doc.save()] at time [now]: what is written to the collection, and
    [None] when the validation rejects the document (the hook does not
    run then). *)
Definition save (now : Z) (u : Url) : option Url :=
  if validates now u then Some (pre_save now u) else None.

(** The document object once [doc.save()] has settled: the hook has
    changed it when the validation passed. *)
Definition settled (now : Z) (u : Url) : Url := default u (save now u).

(** The first block of [recordClick]: geolocation of [data]. *)
Definition geo_enrich (s : Settings) (data : ClickData) : ClickData :=
  if Js.truthy (ipAddress data) && trackLocation s then
    match geoip_lookup (default "" (ipAddress data)) with
    | Some geo => with_geo data geo
    | None => data
    end
  else data.

(** [v => v.ipAddress === data.ipAddress]. *)
Definition same_ip (ip : option string) (v : Visitor) : bool :=
  bool_decide (visitor_ip v = ip).

Definition first_visit (now : Z) (ip : option string) : Visitor :=
  {| visitor_ip := ip; firstVisit := now; lastVisit := now; totalVisits := 1;
     visitor_averageTimeOnPage := 0 |}.

Definition next_visit (now : Z) (v : Visitor) : Visitor :=
  {| visitor_ip := visitor_ip v; firstVisit := firstVisit v; lastVisit := now;
     totalVisits := totalVisits v + 1;
     visitor_averageTimeOnPage := visitor_averageTimeOnPage v |}.

(** The ledger after the visit of [ip]; [visitorIndex] is the result
    of the [findIndex]. *)
Definition update_ledger (now : Z) (ip : option string) (visitorIndex : option nat)
    (ledger : list Visitor) : list Visitor :=
  match visitorIndex with
  | None => ledger ++ [first_visit now ip]
  | Some i => alter (next_visit now) i ledger
  end.

Definition empty_day (today : Z) : DailyStat :=
  {| date := today; day_clicks := 0; day_uniqueVisitors := 0; countries := [];
     devices := []; browsers := []; referrers := []; timeOnPage_total := 0;
     timeOnPage_count := 0; bounceRate := 0 |}.

(** [if (data.f) m.set(data.f, (m.get(data.f) || 0) + 1)]. *)
Definition tally (field : option string) (m : list (string * Z)) : list (string * Z) :=
  if Js.truthy field then map_add (default "" field) 1 m else m.

(** [if (data.timeOnPage)]: [undefined], [0] and [NaN] are falsy. *)
Definition timed (data : ClickData) : bool :=
  match timeOnPage data with
  | Some (Js.Int t) => negb (t =? 0)
  | _ => false
  end.

(** The number that [data.timeOnPage] adds to a total. *)
Definition seconds (data : ClickData) : Z :=
  match timeOnPage data with
  | Some (Js.Int t) => t
  | _ => 0
  end.

(** The updates of [recordClick] to the day's entry. *)
Definition count_click (new_visitor : bool) (data : ClickData) (stat : DailyStat)
    : DailyStat :=
  {| date := date stat;
     day_clicks := day_clicks stat + 1;
     day_uniqueVisitors :=
       if new_visitor then day_uniqueVisitors stat + 1 else day_uniqueVisitors stat;
     countries := tally (country data) (countries stat);
     devices := tally (device data) (devices stat);
     browsers := tally (browser data) (browsers stat);
     referrers := tally (referrer data) (referrers stat);
     timeOnPage_total :=
       if timed data then timeOnPage_total stat + seconds data
       else timeOnPage_total stat;
     timeOnPage_count :=
       if timed data then timeOnPage_count stat + 1 else timeOnPage_count stat;
     bounceRate := bounceRate stat |}.

(** Find today's entry and update it in place; when there is none, an
    empty entry is pushed, and the updates that follow go to the local
    object, not to the copy that the array has stored: the click that
    opens a day is not counted in the entry of the day. *)
Definition update_dailyStats (today : Z) (new_visitor : bool) (data : ClickData)
    (stats : list DailyStat) : list DailyStat :=
  match findIndex (fun stat => date stat =? today) stats with
  | None => stats ++ [empty_day today]
  | Some i => alter (count_click new_visitor data) i stats
  end.

(** [if (arr.length > n) arr = arr.slice(-n)]. *)
Definition keep_last {A : Type} (n : nat) (arr : list A) : list A :=
  if (n <? length arr)%nat then slice_last n arr else arr.

(** The body of [urlSchema.methods.recordClick] down to its last line,
    called at time [now]: the document object before [this.save()]. *)
Definition recorded (now : Z) (data : ClickData) (u : Url) : Url :=
  let data := geo_enrich (settings u) data in
  let visitorIndex := findIndex (same_ip (ipAddress data)) (uniqueVisitors u) in
  let new_visitor := bool_decide (visitorIndex = None) in
  let stats := update_dailyStats (local_midnight now) new_visitor data (dailyStats u) in
  with_counters u
    (clicks u + 1)
    (if new_visitor then uniqueClicks u + 1 else uniqueClicks u)
    (keep_last 1000 (analytics u ++ [data]))
    (keep_last 30 stats)
    (update_ledger now (ipAddress data) visitorIndex (uniqueVisitors u)).

(** [urlSchema.methods.recordClick], called at time [now]: the document
    object once the promise has settled. *)
Definition recordClick (now : Z) (data : ClickData) (u : Url) : Url :=
  settled now (recorded now data u).

(** What the collection holds for the document after the call: the
    saved document, or [u] as it was loaded when the save is
    rejected. *)
Definition recordClick_stored (now : Z) (data : ClickData) (u : Url) : Url :=
  default u (save now (recorded now data u)).

(** [urlSchema.methods.getTopFromMaps]; [key] selects the map. *)
Definition getTopFromMaps (stats : list DailyStat)
    (key : DailyStat -> list (string * Z)) (limit : nat) : list (string * Z) :=
  let aggregated :=
    fold_left
      (fun agg stat => fold_left (fun agg e => map_add e.1 e.2 agg) (key stat) agg)
      stats [] in
  take limit (sort_desc snd aggregated).

(** [stat.timeOnPage.count ? stat.timeOnPage.total / stat.timeOnPage.count : 0]. *)
Definition day_average (stat : DailyStat) : Q :=
  if timeOnPage_count stat =? 0 then 0%Q
  else Qred (inject_Z (timeOnPage_total stat) / inject_Z (timeOnPage_count stat)).

Record DayPoint : Type := {
  point_date : Z;
  point_clicks : Z;
  point_uniqueVisitors : Z;
  point_averageTimeOnPage : Q;
  point_bounceRate : Z
}.

Record Summary : Type := {
  totalClicks : Z;
  summary_uniqueClicks : Z;
  recentClicks : Z;
  clicksByDay : list DayPoint;
  topCountries : list (string * Z);
  topDevices : list (string * Z);
  topBrowsers : list (string * Z);
  topReferrers : list (string * Z);
  averageTimeOnPage : Js.number;
  averageClicksPerDay : Q;
  conversionRate : Js.value
}.

(** [urlSchema.methods.getAnalyticsSummary], called at time [now]. *)
Definition getAnalyticsSummary (now : Z) (days : Z) (u : Url) : Summary :=
  let cutoffDate := days_before now days in
  let recentStats := List.filter (fun stat => cutoffDate <=? date stat) (dailyStats u) in
  let n := inject_Z (Z.of_nat (length recentStats)) in
  {| totalClicks := clicks u;
     summary_uniqueClicks := uniqueClicks u;
     recentClicks := sum_with day_clicks recentStats;
     clicksByDay :=
       map (fun stat =>
              {| point_date := date stat; point_clicks := day_clicks stat;
                 point_uniqueVisitors := day_uniqueVisitors stat;
                 point_averageTimeOnPage := day_average stat;
                 point_bounceRate := bounceRate stat |})
           recentStats;
     topCountries := getTopFromMaps recentStats countries 10;
     topDevices := getTopFromMaps recentStats devices 10;
     topBrowsers := getTopFromMaps recentStats browsers 10;
     topReferrers := getTopFromMaps recentStats referrers 10;
     averageTimeOnPage := Js.div (sumQ_with day_average recentStats) n;
     averageClicksPerDay :=
       if (length recentStats =? 0)%nat then 0%Q
       else Qred (inject_Z (sum_with day_clicks recentStats) / n);
     conversionRate :=
       if uniqueClicks u =? 0 then Js.VNumber (Js.Num 0)
       else Js.VString
              (Js.toFixed2 (inject_Z (clicks u) / inject_Z (uniqueClicks u))) |}.

(** [urlSchema.methods.checkExpiration], called at time [now]: the
    value it returns and the document object afterwards.  The save that
    it starts is rejected by the validator of [expiresAt], which is in
    the past then (see [save_rejects_expired]): the collection keeps
    what it held. *)
Definition checkExpiration (now : Z) (u : Url) : bool * Url :=
  match expiresAt u with
  | None => (false, u)
  | Some t =>
      let expired_now := t <? now in
      if expired_now && negb (isExpired u) then
        (expired_now,
         settled now (with_expiry_state u true expired (qrCode u) (updatedAt u)))
      else (expired_now, u)
  end.

(** *** [backend/routes/urls.js]: [GET /:shortCode] *)

(** What the handler reads of [useragent.parse(...)]. *)
Record UserAgent : Type := {
  isMobile : bool;
  isTablet : bool;
  ua_browser : option string;
  ua_version : option string;
  ua_os : option string;
  ua_platform : option string
}.

(** What the handler reads of the request. *)
Record Request : Type := {
  req_ip : option string;
  header_user_agent : option string;
  header_referer : option string;
  header_accept_language : option string;
  query_timeOnPage : option string;
  query_exitPage : option string
}.

Inductive Response : Type :=
| NotFound                                   (* 404 *)
| Gone                                       (* 410 *)
| ServerError                                (* 500, from the catch block *)
| DelayedPage (delay : Z) (target : string)  (* 200, page with a meta refresh *)
| Redirect (target : string).                (* res.redirect *)

(** [useragent.parse]; [None] when it throws. *)
Variable useragent_parse : option string -> option UserAgent.
(** [parseInt]; [None] for [NaN]. *)
Variable parseInt : string -> option Z.

(** [s.split(',')[0]]. *)
Fixpoint first_segment (s : string) : string :=
  match s with
  | EmptyString => EmptyString
  | String c rest =>
      if Ascii.eqb c ","%char then EmptyString else String c (first_segment rest)
  end.

(** [ua.isMobile ? 'mobile' : ua.isTablet ? 'tablet' : 'desktop']. *)
Definition device_class (ua : UserAgent) : string :=
  if isMobile ua then "mobile" else if isTablet ua then "tablet" else "desktop".

(** [req.headers['accept-language']?.split(',')[0] || 'unknown']. *)
Definition language_of (req : Request) : string :=
  Js.or_else (first_segment <$> header_accept_language req) "unknown".

(** The [analyticsData] object of the handler. *)
Definition analyticsData (now : Z) (req : Request) (ua : UserAgent) : ClickData :=
  {| timestamp := now;
     ipAddress := req_ip req;
     userAgent := header_user_agent req;
     referrer := Some (Js.or_else (header_referer req) "");
     country := None; city := None; region := None; timezone := None;
     location := None;
     device := Some (device_class ua);
     browser := ua_browser ua;
     browserVersion := ua_version ua;
     os := ua_os ua;
     platform := ua_platform ua;
     language := Some (language_of req);
     timeOnPage :=
       if Js.truthy (query_timeOnPage req)
       then Some (from_option Js.Int Js.NotANumber
                    (parseInt (default "" (query_timeOnPage req))))
       else None;
     exitPage := query_exitPage req |}.

(** The handler from the expiry check on, for the document [url] that
    the query found: the response, and what the collection holds for
    the document once the saves have settled. *)
Definition serve (now : Z) (req : Request) (url : Url) : Response * Url :=
  if (checkExpiration now url).1 then (Gone, url)
  else
    match useragent_parse (header_user_agent req) with
    | None => (ServerError, url)
    | Some ua =>
        let stored := recordClick_stored now (analyticsData now req ua) url in
        match redirectType (settings url) with
        | delayed => (DelayedPage (redirectDelay (settings url)) (originalUrl url), stored)
        | _ => (Redirect (originalUrl url), stored)
        end
    end.

(** [String.prototype.trim], which the schema applies to [originalUrl]
    and [customAlias] ([trim: true]), also to a value they are queried
    for. *)
Variable trim : string -> string.

(** [{ $or: [{ shortCode: code }, { customAlias: code }] }]: the query
    is cast by the schema, so the alias is compared with the trimmed
    code. *)
Definition resolves (code : string) (u : Url) : bool :=
  String.eqb (shortCode u) code || bool_decide (customAlias u = Some (trim code)).

(** [router.get('/:shortCode')] over the collection [db]. *)
Definition get_shortCode (now : Z) (req : Request) (code : string) (db : list Url)
    : Response * list Url :=
  match findIndex (resolves code) db with
  | None => (NotFound, db)
  | Some i =>
      match db !! i with
      | None => (NotFound, db)
      | Some url => let '(res, url) := serve now req url in (res, <[i := url]> db)
      end
  end.

(** *** [backend/routes/urls.js]: [GET /stats/summary] *)

Record TopUrl : Type := {
  top_shortCode : string;
  top_originalUrl : string;
  top_clicks : Z;
  top_uniqueClicks : Z
}.

Record StatsSummary : Type := {
  totalUrls : Z;
  sum_totalClicks : Z;
  activeUrls : Z;
  urlGrowth : Q;
  clickGrowth : Q;
  topUrls : list TopUrl;
  deviceStats : gmap string Z;
  browserStats : gmap string Z;
  countryStats : gmap string Z;
  averageClicksPerUrl : Z;
  portfolio_conversionRate : Z
}.

(** [stats[k] = (stats[k] || 0) + 1]. *)
Definition count_key (k : string) (stats : gmap string Z) : gmap string Z :=
  <[k := default 0 (stats !! k) + 1]> stats.

(** The entries of every log of [urls], as the schema reads them. *)
Definition all_entries (urls : list Url) : list AnalyticsEntry :=
  urls ≫= (fun url => analyticsSchema <$> analytics url).

(** [router.get('/stats/summary')] at time [now], over the documents
    [urls] of the user. *)
Definition stats_summary (now : Z) (urls : list Url) : StatsSummary :=
  let total := Z.of_nat (length urls) in
  let total_clicks := sum_with clicks urls in
  let lastMonth := month_before now in
  let urlsLastMonth := List.filter (fun url => lastMonth <=? createdAt url) urls in
  let clicksLastMonth :=
    sum_with
      (fun url =>
         Z.of_nat
           (length (List.filter (fun a => lastMonth <=? timestamp a) (analytics url))))
      urls in
  {| totalUrls := total;
     sum_totalClicks := total_clicks;
     activeUrls :=
       Z.of_nat
         (length
            (List.filter
               (fun url => match status url with active => true | _ => false end)
               urls));
     urlGrowth :=
       Js.round2
         (if total =? 0 then 0%Q
          else Qred (inject_Z (Z.of_nat (length urlsLastMonth)) / inject_Z total * 100));
     clickGrowth :=
       Js.round2
         (if total_clicks =? 0 then 0%Q
          else Qred (inject_Z clicksLastMonth / inject_Z total_clicks * 100));
     topUrls :=
       (fun url =>
          {| top_shortCode := shortCode url; top_originalUrl := originalUrl url;
             top_clicks := clicks url; top_uniqueClicks := uniqueClicks url |})
         <$> take 5 (sort_desc clicks urls);
     deviceStats :=
       fold_left (fun stats a => count_key (a_device a) stats) (all_entries urls) ∅;
     browserStats :=
       fold_left (fun stats a => count_key (a_browser a) stats) (all_entries urls) ∅;
     countryStats :=
       fold_left
         (fun stats a =>
            if String.eqb (a_country a) "" then stats
            else count_key (a_country a) stats)
         (all_entries urls) ∅;
     averageClicksPerUrl :=
       if total =? 0 then 0
       else Js.round (inject_Z total_clicks / inject_Z total);
     portfolio_conversionRate :=
       if total_clicks =? 0 then 0
       else Js.round
              (inject_Z (sum_with uniqueClicks urls) / inject_Z total_clicks * 100) |}.

(** *** [backend/routes/urls.js]: [POST /] *)

(** [new URL(s)] does not throw. *)
Variable URL_valid : string -> bool.
(** The cast of a body value to a [Date]; [None] when the cast fails. *)
Variable Date_cast : string -> option Z.

(** The [settings] object of a request body; a field that is not given
    is [None]. *)
Record GivenSettings : Type := {
  given_trackReferrer : option bool;
  given_trackLocation : option bool;
  given_trackDeviceInfo : option bool;
  given_redirectType : option string;
  given_redirectDelay : option Z
}.

Record CreateBody : Type := {
  body_originalUrl : option string;
  body_customAlias : option string;
  body_expiresAt : option string;
  body_settings : option GivenSettings
}.

Inductive CreateAnswer : Type :=
| UrlCreated (url : Url)        (* 200, the document *)
| UrlRejected (error : string)  (* 400 *)
| UrlFailed.                    (* 500, from the catch block *)

(** The [enum] of [settings.redirectType]. *)
Definition redirectType_of (name : string) : option RedirectType :=
  if String.eqb name "direct" then Some direct
  else if String.eqb name "delayed" then Some delayed
  else if String.eqb name "interstitial" then Some interstitial
  else None.

(** [{ ...settings, redirectType: settings?.redirectType || 'direct',
       redirectDelay: settings?.redirectDelay || 0 }] under the schema
    defaults; [None] when [redirectType] is not in the [enum]. *)
Definition settings_of (given : option GivenSettings) : option Settings :=
  kind ← redirectType_of (Js.or_else (given ≫= given_redirectType) "direct");
  Some {| trackReferrer := default true (given ≫= given_trackReferrer);
          trackLocation := default true (given ≫= given_trackLocation);
          trackDeviceInfo := default true (given ≫= given_trackDeviceInfo);
          redirectType := kind;
          redirectDelay := default 0 (given ≫= given_redirectDelay) |}.

(** [router.post('/')] at time [now] over the collection [db], for an
    authenticated request that the rate limiter lets through and whose
    [tags], if any, are a string; [fresh] is what [shortid.generate]
    would return.  Of the body, [title], [description] and [tags] go
    to fields that the document type here does not carry. *)
Definition post_url (now : Z) (fresh : string) (body : CreateBody) (db : list Url)
    : CreateAnswer * list Url :=
  match body_originalUrl body with
  | None => (UrlRejected "Invalid URL format", db)
  | Some target =>
      if negb (URL_valid target) then (UrlRejected "Invalid URL format", db)
      else if Js.truthy (body_customAlias body)
              && existsb (resolves (default "" (body_customAlias body))) db
      then (UrlRejected "Custom alias already taken", db)
      else
        let expires :=
          if Js.truthy (body_expiresAt body)
          then Some (Date_cast (default "" (body_expiresAt body)))
          else None in
        match expires, settings_of (body_settings body) with
        | Some None, _ | _, None => (UrlFailed, db)
        | _, Some s =>
            let url :=
              new_Url now (trim target) (Js.or_else (body_customAlias body) fresh)
                (trim <$> body_customAlias body) (mjoin expires) s in
            if valid_new now url
               && negb (existsb (fun u => String.eqb (shortCode u) (shortCode url)) db)
            then (UrlCreated (pre_save now url), db ++ [pre_save now url])
            else (UrlFailed, db)
        end
  end.

(** *** Runs, reference notions and sample data *)

(** A run of [recordClick] calls, each with the time it is made at. *)
Definition record_all (calls : list (Z * ClickData)) (u : Url) : Url :=
  fold_left (fun u call => recordClick call.1 call.2 u) calls u.

(** The addresses of the calls of a run, in call order. *)
Definition ips (calls : list (Z * ClickData)) : list (option string) :=
  (fun call => ipAddress call.2) <$> calls.

(** The addresses of the ledger, in ledger order. *)
Definition ledger_ips (u : Url) : list (option string) :=
  visitor_ip <$> uniqueVisitors u.

(** The number of distinct elements of a list. *)
Definition distinct (l : list (option string)) : nat := length (remove_dups l).


(** The expiry flag and the status agree. *)
Definition expiry_consistent (u : Url) : Prop :=
  isExpired u = true -> status u = expired.

(** The address a response sends the visitor to, at once or after the
    delay. *)
Definition leads_to (res : Response) : option string :=
  match res with
  | Redirect target => Some target
  | DelayedPage _ target => Some target
  | _ => None
  end.

(** The expiry time, if any, is not behind the clock. *)
Definition unexpired (now : Z) (u : Url) : Prop :=
  match expiresAt u with
  | None => True
  | Some t => now <= t
  end.

(** The redirect rule in the words of the specification: the status is
    neither [expired] nor [blocked], and [expiresAt] is unset or later
    than [now]. *)
Definition redirectable_as_specified (now : Z) (u : Url) : Prop :=
  status u <> expired /\ status u <> blocked /\
  match expiresAt u with
  | None => True
  | Some t => now < t
  end.

(** The growth rule in the words of the specification:
    [(current - baseline) / baseline * 100], and [100] for a zero
    baseline. *)
Definition growth_as_specified (current baseline : Z) : Q :=
  if baseline =? 0 then 100%Q
  else Qred (inject_Z (current - baseline) / inject_Z baseline * 100).

(** A figure that is reported to two decimals: it is within a hundredth
    of the exact value. *)
Definition to_two_decimals (reported exact : Q) : Prop :=
  (Qabs (reported - exact) <= 1 # 100)%Q.

(** The geographic fields of an event. *)
Definition geo_fields (d : ClickData)
    : option string * option string * option string * option string * option (Q * Q) :=
  (country d, city d, region d, timezone d, location d).

Definition no_geo_fields : option string * option string * option string
                           * option string * option (Q * Q) :=
  (None, None, None, None, None).

(** The classification fields of an event. *)
Definition classification (d : ClickData)
    : option string * option string * option string * option string * option string
      * option string :=
  (device d, browser d, browserVersion d, os d, platform d, language d).

(** A host on UTC: midnight, and a number of days back. *)
Definition utc_midnight (t : Z) : Z := t - t mod 86400000.
Definition utc_days_before (t days : Z) : Z := t - days * 86400000.

(** One calendar month back from a day of August (July has 31 days). *)
Definition august_month_before (t : Z) : Z := t - 31 * 86400000.

(** 2024-08-15T12:00:00Z. *)
Definition mid_august : Z := 1723723200000.

(** A geoip database that knows only 8.8.8.8. *)
Definition sample_geoip (ip : string) : option Geo :=
  if String.eqb ip "8.8.8.8" then
    Some {| geo_country := "US"; geo_city := ""; geo_region := "";
            geo_timezone := "America/Chicago"; geo_ll := (37751 # 1000, - (97822 # 1000))%Q |}
  else None.

Definition sample_qr (text : string) : option string := Some ("data:image/png;" +:+ text).

(** A parser result for a user agent that matches nothing. *)
Definition unknown_agent : UserAgent :=
  {| isMobile := false; isTablet := false; ua_browser := Some "unknown";
     ua_version := Some "unknown"; ua_os := Some "unknown";
     ua_platform := Some "unknown" |}.

Definition sample_parse (source : option string) : option UserAgent := Some unknown_agent.

Definition sample_parseInt (s : string) : option Z := None.

(** A request from the loopback address with an unrecognised agent and
    no other header. *)
Definition local_request : Request :=
  {| req_ip := Some "127.0.0.1"; header_user_agent := Some "curl";
     header_referer := None; header_accept_language := None;
     query_timeOnPage := None; query_exitPage := None |}.

(** A click from the address [ip] with no other field set. *)
Definition click_from (t : Z) (ip : string) : ClickData :=
  {| timestamp := t; ipAddress := Some ip; userAgent := None; referrer := None;
     country := None; city := None; region := None; timezone := None;
     location := None; device := None; browser := None; browserVersion := None;
     os := None; platform := None; language := None; timeOnPage := None;
     exitPage := None |}.

Definition sample_link : Url :=
  new_Url mid_august "https://example.org/" "abc123" None None default_settings.

(** The same link, blocked by an administrator. *)
Definition blocked_link : Url :=
  with_expiry_state sample_link false blocked None mid_august.

(** A link that expires at [mid_august] exactly. *)
Definition expiring_link : Url :=
  new_Url (mid_august - 3600000) "https://example.org/" "promo" (Some "promo")
    (Some mid_august) default_settings.

(** A link that records neither location nor device information. *)
Definition untracked_link : Url :=
  new_Url mid_august "https://example.org/" "quiet1" None None
    {| trackReferrer := true; trackLocation := false; trackDeviceInfo := false;
       redirectType := direct; redirectDelay := 0 |}.


(** Two days before [mid_august], and two months before it. *)
Definition two_days_earlier : Z := mid_august - 2 * 86400000.
Definition two_months_earlier : Z := mid_august - 62 * 86400000.

Definition with_clicks (u : Url) (n : Z) : Url :=
  with_counters u n (uniqueClicks u) (analytics u) (dailyStats u) (uniqueVisitors u).

(** A portfolio of two links with [clicks = [10, 0]]: one link is older
    than a month, the other was created two days ago. *)
Definition portfolio : list Url :=
  [ with_clicks
      (new_Url two_months_earlier "https://example.org/a" "aaaaaa" None None
         default_settings) 10;
    new_Url two_days_earlier "https://example.org/b" "bbbbbb" None None
      default_settings ].

Definition small_link (created clicked : Z) : SmallModel.Url :=
  {| SmallModel.originalUrl := "https://example.org/"; SmallModel.shortUrl := "s";
     SmallModel.clicks := clicked; SmallModel.lastClickedAt := None;
     SmallModel.expiresAt := None; SmallModel.createdAt := created;
     SmallModel.analytics := [] |}.

(** The same portfolio in the small model. *)
Definition small_portfolio : list SmallModel.Url :=
  [ small_link two_months_earlier 10; small_link two_days_earlier 0 ].

(** An old link never clicked, and a link of two days with five clicks. *)
Definition late_bloomer : list SmallModel.Url :=
  [ small_link two_months_earlier 0; small_link two_days_earlier 5 ].

Definition sample_base : string := "http://localhost:5000".

(** A request from 8.8.8.8 that prefers English. *)
Definition public_request : Request :=
  {| req_ip := Some "8.8.8.8"; header_user_agent := Some "curl";
     header_referer := Some "https://news.example/";
     header_accept_language := Some "en-US,en;q=0.9";
     query_timeOnPage := None; query_exitPage := None |}.

(** Two visitors, two clicks each, within four milliseconds. *)
Definition two_visitors_twice : list (Z * ClickData) :=
  [ (mid_august, click_from mid_august "10.0.0.1");
    (mid_august + 1, click_from (mid_august + 1) "10.0.0.2");
    (mid_august + 2, click_from (mid_august + 2) "10.0.0.1");
    (mid_august + 3, click_from (mid_august + 3) "10.0.0.2") ].

(** The number of calls of a run that come from the address [ip]. *)
Definition visits_from (ip : option string) (calls : list (Z * ClickData)) : Z :=
  Z.of_nat (length (List.filter (fun call => bool_decide (ipAddress call.2 = ip)) calls)).

(** The counters of a document are in order: the unique clicks are
    among the clicks, and so are the logged events. *)
Definition counters_ok (u : Url) : Prop :=
  0 <= uniqueClicks u <= clicks u /\ Z.of_nat (length (analytics u)) <= clicks u.

(** The daily statistics of a document are in order: one entry per day,
    in each entry the unique visitors are among the clicks, and the
    clicks of the days are among the clicks of the link. *)
Definition rollups_ok (u : Url) : Prop :=
  NoDup (date <$> dailyStats u) /\
  Forall (fun stat => 0 <= day_uniqueVisitors stat <= day_clicks stat) (dailyStats u) /\
  sum_with day_clicks (dailyStats u) <= clicks u.

(** The total that the maps [key] of the entries [stats] hold for
    [name]. *)
Definition total_of (key : DailyStat -> list (string * Z)) (name : string)
    (stats : list DailyStat) : Z :=
  sum_with
    (fun stat =>
       sum_with snd (List.filter (fun e => String.eqb e.1 name) (key stat)))
    stats.

(** [trim] on ASCII text: the spaces at both ends go. *)
Fixpoint trim_start (s : string) : string :=
  match s with
  | String c rest => if Ascii.eqb c " "%char then trim_start rest else s
  | EmptyString => EmptyString
  end.

Definition space_trim (s : string) : string :=
  String.string_of_list_ascii
    (rev (String.list_ascii_of_string
            (trim_start
               (String.string_of_list_ascii
                  (rev (String.list_ascii_of_string (trim_start s))))))).

(** A URL check that accepts what starts with [http], after spaces. *)
Definition http_only (s : string) : bool := String.prefix "http" (trim_start s).

(** A date cast that knows one date, a day after [mid_august]. *)
Definition one_date (s : string) : option Z :=
  if String.eqb s "2024-08-16T12:00:00Z" then Some (mid_august + 86400000) else None.

(** A request to shorten a URL under the alias [sale] for a day. *)
Definition sale_body : CreateBody :=
  {| body_originalUrl := Some " https://example.org/sale ";
     body_customAlias := Some "sale";
     body_expiresAt := Some "2024-08-16T12:00:00Z";
     body_settings := None |}.

(** A request for the alias of [expiring_link]. *)
Definition promo_body : CreateBody :=
  {| body_originalUrl := Some "https://example.org/promo2";
     body_customAlias := Some "promo";
     body_expiresAt := None;
     body_settings := None |}.

(** The same two requests to the small create route. *)
Definition small_sale_body : SmallModel.CreateBody :=
  {| SmallModel.body_originalUrl := Some "https://example.org/sale";
     SmallModel.body_customAlias := Some "sale";
     SmallModel.body_expiresAt := None |}.

Definition small_promo_body : SmallModel.CreateBody :=
  {| SmallModel.body_originalUrl := Some "https://example.org/promo2";
     SmallModel.body_customAlias := Some "promo";
     SmallModel.body_expiresAt := None |}.

(** A document of the small model under the short URL [promo]. *)
Definition small_promo : SmallModel.Url :=
  {| SmallModel.originalUrl := "https://example.org/promo"; SmallModel.shortUrl := "promo";
     SmallModel.clicks := 3; SmallModel.lastClickedAt := None;
     SmallModel.expiresAt := None; SmallModel.createdAt := two_days_earlier;
     SmallModel.analytics := [] |}.

(** The request of [local_request] with a [timeOnPage] that is not a
    number. *)
Definition unparsed_request : Request :=
  {| req_ip := Some "127.0.0.1"; header_user_agent := Some "curl";
     header_referer := None; header_accept_language := None;
     query_timeOnPage := Some "abc"; query_exitPage := None |}.

(** The request of [sale_body] with spaces around the alias, and
    without an expiry time. *)
Definition spaced_sale_body : CreateBody :=
  {| body_originalUrl := Some "https://example.org/sale2";
     body_customAlias := Some " sale ";
     body_expiresAt := None;
     body_settings := None |}.

(** One click a day from one address, for 31 days from [mid_august]. *)
Definition a_click_a_day : list (Z * ClickData) :=
  (fun i : nat =>
     (mid_august + Z.of_nat i * 86400000,
      click_from (mid_august + Z.of_nat i * 86400000) "10.0.0.1"))
    <$> seq 0 31.

(** Two days of statistics with country maps. *)
Definition two_days : list DailyStat :=
  [ {| date := utc_midnight two_days_earlier; day_clicks := 5; day_uniqueVisitors := 3;
       countries := [("US", 3); ("DE", 2)]; devices := [("desktop", 5)];
       browsers := []; referrers := []; timeOnPage_total := 0; timeOnPage_count := 0;
       bounceRate := 0 |};
    {| date := utc_midnight mid_august; day_clicks := 4; day_uniqueVisitors := 2;
       countries := [("DE", 3); ("FR", 1)]; devices := [("mobile", 4)];
       browsers := []; referrers := []; timeOnPage_total := 0; timeOnPage_count := 0;
       bounceRate := 0 |} ].

(** ** Properties *)

(** *** Arrays *)

Lemma findIndex_None {A : Type} (p : A -> bool) (arr : list A) :
  findIndex p arr = None <-> Forall (fun x => p x = false) arr.
Proof.
  induction arr as [|x rest IH]; simpl.
  - split; [constructor | reflexivity].
  - destruct (p x) eqn:Hx.
    + split; [discriminate | intros H; inversion H; congruence].
    + destruct (findIndex p rest); simpl.
      * split; [discriminate | intros H; inversion H as [|? ? ? Hrest]; subst].
        apply IH in Hrest. discriminate.
      * split; [intros _; constructor; [assumption | by apply IH] | reflexivity].
Qed.

Lemma findIndex_Some {A : Type} (p : A -> bool) (arr : list A) (i : nat) :
  findIndex p arr = Some i -> exists x, arr !! i = Some x /\ p x = true.
Proof.
  revert i. induction arr as [|x rest IH]; intros i; simpl; [discriminate|].
  destruct (p x) eqn:Hx.
  - intros [= <-]. exists x. split; [reflexivity | assumption].
  - destruct (findIndex p rest) as [j|]; simpl; [|discriminate].
    intros [= <-]. apply (IH j). reflexivity.
Qed.

Lemma keep_last_slice {A : Type} (n : nat) (arr : list A) :
  keep_last n arr = slice_last n arr.
Proof.
  unfold keep_last, slice_last.
  destruct (Nat.ltb_spec n (length arr)) as [Hlt|Hge]; [reflexivity|].
  replace (length arr - n)%nat with 0%nat by lia. reflexivity.
Qed.

Lemma slice_last_length {A : Type} (n : nat) (arr : list A) :
  length (slice_last n arr) = (length arr `min` n)%nat.
Proof. unfold slice_last. rewrite length_drop. lia. Qed.





(** *** What [recordClick] leaves alone *)

Lemma geo_enrich_ipAddress (s : Settings) (d : ClickData) :
  ipAddress (geo_enrich s d) = ipAddress d.
Proof.
  unfold geo_enrich.
  destruct (Js.truthy (ipAddress d) && trackLocation s); [|reflexivity].
  destruct (geoip_lookup _); reflexivity.
Qed.

(** A save changes the expiry flag, the status, the QR code and the
    time of the update, and nothing else. *)
Lemma settled_clicks (now : Z) (u : Url) : clicks (settled now u) = clicks u.
Proof. unfold settled, save. by destruct (validates now u). Qed.

Lemma settled_uniqueClicks (now : Z) (u : Url) :
  uniqueClicks (settled now u) = uniqueClicks u.
Proof. unfold settled, save. by destruct (validates now u). Qed.

Lemma settled_analytics (now : Z) (u : Url) : analytics (settled now u) = analytics u.
Proof. unfold settled, save. by destruct (validates now u). Qed.

Lemma settled_dailyStats (now : Z) (u : Url) : dailyStats (settled now u) = dailyStats u.
Proof. unfold settled, save. by destruct (validates now u). Qed.

Lemma settled_uniqueVisitors (now : Z) (u : Url) :
  uniqueVisitors (settled now u) = uniqueVisitors u.
Proof. unfold settled, save. by destruct (validates now u). Qed.


Lemma settled_expiresAt (now : Z) (u : Url) : expiresAt (settled now u) = expiresAt u.
Proof. unfold settled, save. by destruct (validates now u). Qed.

(** A document whose expiry time is not ahead of the clock is rejected
    by the validator of [expiresAt]: nothing is written and the hook
    does not run. *)
Lemma save_rejects_expired (now t : Z) (u : Url) :
  expiresAt u = Some t -> t <= now -> save now u = None /\ settled now u = u.
Proof.
  intros Ht Hpast. unfold settled, save, validates, valid_new. rewrite Ht.
  destruct (Z.ltb_spec now t); [lia|]. by rewrite !andb_false_r.
Qed.



Lemma record_all_snoc (calls : list (Z * ClickData)) (call : Z * ClickData) (u : Url) :
  record_all (calls ++ [call]) u = recordClick call.1 call.2 (record_all calls u).
Proof. unfold record_all. by rewrite fold_left_app. Qed.

(** *** The counters and the ledger *)

Lemma same_ip_absent (ip : option string) (ledger : list Visitor) :
  findIndex (same_ip ip) ledger = None <-> ip ∉ visitor_ip <$> ledger.
Proof.
  rewrite findIndex_None, Forall_forall, list_elem_of_fmap.
  unfold same_ip. split.
  - intros Hall (v & -> & Hv). specialize (Hall v Hv).
    by rewrite bool_decide_eq_false in Hall.
  - intros Hnot v Hv. apply bool_decide_eq_false. intros <-. apply Hnot. eauto.
Qed.

Lemma next_visit_ips (now : Z) (i : nat) (ledger : list Visitor) :
  visitor_ip <$> alter (next_visit now) i ledger = visitor_ip <$> ledger.
Proof.
  revert i. induction ledger as [|v rest IH]; intros [|i]; simpl; try reflexivity.
  f_equal. apply IH.
Qed.

(** The ledger gains the address of the click when it is not there
    yet, and keeps its addresses otherwise. *)
Lemma recordClick_ledger_ips (now : Z) (d : ClickData) (u : Url) :
  ledger_ips (recordClick now d u) =
  if decide (ipAddress d ∈ ledger_ips u) then ledger_ips u
  else ledger_ips u ++ [ipAddress d].
Proof.
  unfold ledger_ips, recordClick. rewrite settled_uniqueVisitors. simpl.
  rewrite geo_enrich_ipAddress.
  destruct (findIndex (same_ip (ipAddress d)) (uniqueVisitors u)) as [i|] eqn:Hfind;
    simpl.
  - rewrite next_visit_ips. rewrite decide_True; [reflexivity|].
    destruct (decide (ipAddress d ∈ visitor_ip <$> uniqueVisitors u)) as [|Hnot];
      [assumption|].
    apply same_ip_absent in Hnot. congruence.
  - apply same_ip_absent in Hfind. rewrite decide_False by assumption.
    by rewrite fmap_app.
Qed.

Lemma recordClick_clicks (now : Z) (d : ClickData) (u : Url) :
  clicks (recordClick now d u) = clicks u + 1.
Proof. unfold recordClick. by rewrite settled_clicks. Qed.

Lemma recordClick_uniqueClicks (now : Z) (d : ClickData) (u : Url) :
  uniqueClicks (recordClick now d u) =
  if decide (ipAddress d ∈ ledger_ips u) then uniqueClicks u else uniqueClicks u + 1.
Proof.
  unfold ledger_ips, recordClick. rewrite settled_uniqueClicks. simpl.
  rewrite geo_enrich_ipAddress.
  destruct (findIndex (same_ip (ipAddress d)) (uniqueVisitors u)) as [i|] eqn:Hfind.
  - rewrite bool_decide_eq_false_2 by discriminate.
    rewrite decide_True; [reflexivity|].
    destruct (decide (ipAddress d ∈ visitor_ip <$> uniqueVisitors u)) as [|Hnot];
      [assumption|].
    apply same_ip_absent in Hnot. congruence.
  - rewrite bool_decide_eq_true_2 by reflexivity.
    apply same_ip_absent in Hfind. by rewrite decide_False.
Qed.

(** After a run on a link whose counters and ledger are empty: the
    click counter is the number of calls, the ledger has no address
    twice and holds the addresses of the calls, and the counter of
    unique clicks is the length of the ledger. *)
Lemma record_all_ledger (calls : list (Z * ClickData)) (u : Url) :
  clicks u = 0 -> uniqueClicks u = 0 -> uniqueVisitors u = [] ->
  let u' := record_all calls u in
  clicks u' = Z.of_nat (length calls) /\
  uniqueClicks u' = Z.of_nat (length (ledger_ips u')) /\
  NoDup (ledger_ips u') /\
  (forall ip, ip ∈ ledger_ips u' <-> ip ∈ ips calls).
Proof.
  intros Hc Hu Hl. induction calls as [|call calls IH] using rev_ind; simpl.
  - unfold ledger_ips. rewrite Hc, Hu, Hl. simpl.
    split_and!; [reflexivity | reflexivity | constructor | reflexivity].
  - simpl in IH. destruct IH as (IHc & IHu & IHnd & IHin).
    rewrite record_all_snoc, recordClick_clicks, recordClick_uniqueClicks,
      recordClick_ledger_ips.
    unfold ips. rewrite fmap_app, length_app. simpl.
    destruct (decide (ipAddress call.2 ∈ ledger_ips (record_all calls u)))
      as [Hin|Hnot].
    + split_and!; [lia | assumption | assumption |].
      intros ip. rewrite elem_of_app, list_elem_of_singleton, IHin.
      split; [by left | intros [?| ->]; [assumption | by apply IHin]].
    + split_and!; [lia | rewrite length_app; simpl; lia | |].
      * apply NoDup_app. split_and!; [assumption | | apply NoDup_singleton].
        intros ip Hip ->%list_elem_of_singleton. contradiction.
      * intros ip. rewrite !elem_of_app, IHin. reflexivity.
Qed.

Lemma distinct_NoDup (l : list (option string)) :
  NoDup l -> distinct l = length l.
Proof.
  intros Hnd. unfold distinct. apply Permutation_length.
  apply NoDup_Permutation; [apply NoDup_remove_dups | assumption |].
  intros x. apply elem_of_remove_dups.
Qed.

Lemma distinct_constant (x : option string) (l : list (option string)) :
  l <> [] -> Forall (fun y => y = x) l -> distinct l = 1%nat.
Proof.
  intros Hne Hall. unfold distinct.
  change 1%nat with (length [x]). apply Permutation_length.
  apply NoDup_Permutation; [apply NoDup_remove_dups | apply NoDup_singleton |].
  intros y. rewrite elem_of_remove_dups, list_elem_of_singleton.
  rewrite Forall_forall in Hall. split; [apply Hall|].
  intros ->. destruct l as [|z l]; [done|].
  rewrite <- (Hall z) by left. left.
Qed.

Lemma record_all_counts (calls : list (Z * ClickData)) (u : Url) :
  clicks u = 0 -> uniqueClicks u = 0 -> uniqueVisitors u = [] ->
  clicks (record_all calls u) = Z.of_nat (length calls) /\
  uniqueClicks (record_all calls u) = Z.of_nat (distinct (ips calls)).
Proof.
  intros Hc Hu Hl.
  destruct (record_all_ledger calls u Hc Hu Hl) as (Hclicks & Huniq & Hnd & Hin).
  split; [assumption|]. rewrite Huniq. f_equal. unfold distinct.
  apply Permutation_length.
  apply NoDup_Permutation; [assumption | apply NoDup_remove_dups |].
  intros ip. rewrite elem_of_remove_dups. apply Hin.
Qed.

(** C3.  For every sequence of [recordClick] calls on a freshly created
    link, once all calls are done [clicks] is the number of calls and
    [uniqueClicks] is the number of distinct IP addresses among them;
    in particular [N] calls with pairwise distinct addresses give
    [clicks = uniqueClicks = N], and [N >= 1] calls with one address
    give [clicks = N] and [uniqueClicks = 1]. *)
Theorem recordClick_counts_calls_and_addresses
    (created : Z) (target code : string) (alias : option string)
    (expires : option Z) (s : Settings) (calls : list (Z * ClickData)) :
  let u := record_all calls (new_Url created target code alias expires s) in
  clicks u = Z.of_nat (length calls) /\
  uniqueClicks u = Z.of_nat (distinct (ips calls)) /\
  (NoDup (ips calls) -> uniqueClicks u = Z.of_nat (length calls)) /\
  (forall ip, calls <> [] -> Forall (fun call => ipAddress call.2 = ip) calls ->
              uniqueClicks u = 1).
Proof.
  intros u.
  destruct (record_all_counts calls (new_Url created target code alias expires s))
    as [Hclicks Huniq]; [reflexivity..|].
  fold u in Hclicks, Huniq. split_and!; [assumption | assumption | |].
  - intros Hnd. rewrite Huniq, (distinct_NoDup _ Hnd). unfold ips.
    by rewrite length_fmap.
  - intros ip Hne Hall. rewrite Huniq, (distinct_constant ip); [reflexivity| |].
    + unfold ips. destruct calls; [done | discriminate].
    + unfold ips. rewrite Forall_fmap. exact Hall.
Qed.

(** *** The bounded log and the bounded daily statistics *)

Lemma recordClick_analytics (now : Z) (d : ClickData) (u : Url) :
  analytics (recordClick now d u) =
  slice_last 1000 (analytics u ++ [geo_enrich (settings u) d]).
Proof. unfold recordClick. rewrite settled_analytics. simpl. apply keep_last_slice. Qed.

Lemma recordClick_dailyStats (now : Z) (d : ClickData) (u : Url) :
  dailyStats (recordClick now d u) =
  slice_last 30
    (update_dailyStats (local_midnight now)
       (bool_decide (ipAddress d ∉ ledger_ips u))
       (geo_enrich (settings u) d) (dailyStats u)).
Proof.
  unfold recordClick. rewrite settled_dailyStats. simpl.
  rewrite keep_last_slice, geo_enrich_ipAddress.
  do 2 f_equal. apply bool_decide_ext. apply same_ip_absent.
Qed.



(** *** Expiry *)

Lemma new_Url_expiry_consistent (created : Z) (target code : string)
    (alias : option string) (expires : option Z) (s : Settings) :
  expiry_consistent (new_Url created target code alias expires s).
Proof. unfold expiry_consistent. simpl. discriminate. Qed.

Lemma pre_save_expiry_consistent (now : Z) (u : Url) :
  expiry_consistent u -> expiry_consistent (pre_save now u).
Proof.
  unfold expiry_consistent, pre_save. simpl.
  destruct (expiresAt u) as [t|]; [|intros H; exact H].
  destruct (t <? now); [reflexivity | discriminate].
Qed.

(** A save of a document with an expiry time makes the flag and the
    status agree, whatever they were. *)
Lemma pre_save_restores_consistency (now : Z) (u : Url) :
  expiresAt u <> None -> expiry_consistent (pre_save now u).
Proof.
  unfold expiry_consistent, pre_save. simpl.
  destruct (expiresAt u) as [t|]; [|done]. intros _.
  destruct (t <? now); [reflexivity | discriminate].
Qed.

Lemma settled_expiry_consistent (now : Z) (u : Url) :
  expiry_consistent u -> expiry_consistent (settled now u).
Proof.
  intros H. unfold settled, save. destruct (validates now u); [|exact H].
  by apply pre_save_expiry_consistent.
Qed.

Lemma recordClick_expiry_consistent (now : Z) (d : ClickData) (u : Url) :
  expiry_consistent u -> expiry_consistent (recordClick now d u).
Proof. intros H. unfold recordClick. apply settled_expiry_consistent. exact H. Qed.

Lemma checkExpiration_expiry_consistent (now : Z) (u : Url) :
  expiry_consistent u -> expiry_consistent (checkExpiration now u).2.
Proof.
  intros H. unfold checkExpiration.
  destruct (expiresAt u) as [t|]; [|exact H].
  destruct ((t <? now) && negb (isExpired u)); [|exact H].
  apply settled_expiry_consistent. unfold expiry_consistent. reflexivity.
Qed.

(** [checkExpiration] answers whether the clock is past [expiresAt]. *)
Lemma checkExpiration_result (now : Z) (u : Url) :
  (checkExpiration now u).1 =
  match expiresAt u with
  | Some t => t <? now
  | None => false
  end.
Proof.
  unfold checkExpiration. destruct (expiresAt u) as [t|]; [|reflexivity].
  destruct ((t <? now) && negb (isExpired u)); reflexivity.
Qed.

(** C6.  For every link whose [expiresAt] is set and in the past,
    [checkExpiration] returns true and leaves the link flagged, and in
    status [expired] when the flag and the status agreed before (as
    they do on a link that was not flagged yet); a later call returns
    true again and leaves the document as the first call left it. *)
Theorem checkExpiration_expires_once (now later t : Z) (u : Url) :
  expiresAt u = Some t -> t < now -> now <= later ->
  let first := checkExpiration now u in
  let second := checkExpiration later first.2 in
  first.1 = true /\ isExpired first.2 = true /\
  (expiry_consistent u -> status first.2 = expired) /\
  second.1 = true /\ second.2 = first.2.
Proof.
  intros Ht Hpast Hlater first second. subst first second.
  assert (Hnow : (t <? now) = true) by (apply Z.ltb_lt; lia).
  assert (Hthen : (t <? later) = true) by (apply Z.ltb_lt; lia).
  destruct (isExpired u) eqn:Hflag.
  - assert (Hfirst : checkExpiration now u = (true, u))
      by (unfold checkExpiration; by rewrite Ht, Hnow, Hflag).
    rewrite Hfirst. simpl.
    unfold checkExpiration. rewrite Ht, Hthen, Hflag. simpl.
    split_and!; auto.
  - assert (Hfirst : checkExpiration now u =
                     (true, with_expiry_state u true expired (qrCode u) (updatedAt u))).
    { unfold checkExpiration. rewrite Ht, Hnow, Hflag. simpl. f_equal.
      apply (save_rejects_expired now t); [exact Ht | lia]. }
    rewrite Hfirst. simpl.
    unfold checkExpiration. simpl. rewrite Ht, Hthen. simpl.
    split_and!; reflexivity.
Qed.

(** C10.  For every link whose [expiresAt] is unset, [checkExpiration]
    returns false and changes nothing; nor do the save hook,
    [recordClick] or the redirect route move its status or its expiry
    flag. *)
Theorem checkExpiration_without_expiresAt (now : Z) (u : Url) :
  expiresAt u = None ->
  checkExpiration now u = (false, u) /\
  (status (pre_save now u) = status u /\ isExpired (pre_save now u) = isExpired u) /\
  (forall d, status (recordClick now d u) = status u /\
             isExpired (recordClick now d u) = isExpired u /\
             expiresAt (recordClick now d u) = None) /\
  (forall req, status (serve now req u).2 = status u /\
               isExpired (serve now req u).2 = isExpired u /\
               expiresAt (serve now req u).2 = None).
Proof.
  intros Hnone.
  assert (Hcheck : checkExpiration now u = (false, u))
    by (unfold checkExpiration; by rewrite Hnone).
  assert (Hsave : forall doc,
             expiresAt doc = None ->
             status (pre_save now doc) = status doc /\
             isExpired (pre_save now doc) = isExpired doc /\
             expiresAt (pre_save now doc) = None)
    by (intros doc Hdoc; unfold pre_save; simpl; by rewrite Hdoc).
  assert (Hrecord : forall d, status (recordClick now d u) = status u /\
                              isExpired (recordClick now d u) = isExpired u /\
                              expiresAt (recordClick now d u) = None).
  { intros d. unfold recordClick, settled, save.
    destruct (validates now (recorded now d u)); [|by split_and!].
    exact (Hsave (recorded now d u) Hnone). }
  split_and!; try assumption.
  - exact (proj1 (Hsave u Hnone)).
  - exact (proj1 (proj2 (Hsave u Hnone))).
  - intros req. unfold serve. rewrite Hcheck. cbn [fst].
    destruct (useragent_parse (header_user_agent req)) as [ua|]; [|by split_and!].
    assert (Hstored : status (recordClick_stored now (analyticsData now req ua) u) = status u /\
                      isExpired (recordClick_stored now (analyticsData now req ua) u)
                        = isExpired u /\
                      expiresAt (recordClick_stored now (analyticsData now req ua) u) = None).
    { unfold recordClick_stored, save.
      destruct (validates now (recorded now (analyticsData now req ua) u));
        [|by split_and!].
      exact (Hsave (recorded now (analyticsData now req ua) u) Hnone). }
    destruct (redirectType (settings u)); exact Hstored.
Qed.

(** *** The redirect route *)

(** The route answers 404 when no document resolves the code, and
    otherwise what [serve] answers for the first document that does. *)
Lemma get_shortCode_response (now : Z) (req : Request) (code : string) (db : list Url) :
  (get_shortCode now req code db).1 =
  match findIndex (resolves code) db with
  | None => NotFound
  | Some i => from_option (fun url => (serve now req url).1) NotFound (db !! i)
  end.
Proof.
  unfold get_shortCode. destruct (findIndex (resolves code) db) as [i|]; [|reflexivity].
  destruct (db !! i) as [url|]; [|reflexivity]. simpl.
  destruct (serve now req url). reflexivity.
Qed.

(** C2, as amended.  For every resolved link and every request whose
    user agent the parser accepts, the route sends the visitor to
    [originalUrl] (by a redirect, or by the delayed page when
    [redirectType] is [delayed]) if and only if [expiresAt] is unset
    or not earlier than the clock; it answers 410 otherwise.  The
    status of the link is not consulted. *)
Theorem gateway_redirects_unless_past_expiry
    (now : Z) (req : Request) (url : Url) (ua : UserAgent) :
  useragent_parse (header_user_agent req) = Some ua ->
  (leads_to (serve now req url).1 = Some (originalUrl url) <-> unexpired now url) /\
  ((serve now req url).1 = Redirect (originalUrl url) <->
     unexpired now url /\ redirectType (settings url) <> delayed) /\
  ((serve now req url).1 = Gone <-> ~ unexpired now url).
Proof.
  intros Hparse. unfold serve, unexpired.
  rewrite (checkExpiration_result now url), Hparse.
  destruct (expiresAt url) as [t|].
  - destruct (Z.ltb_spec t now) as [Hlt|Hge]; simpl.
    + settle.
    + destruct (redirectType (settings url)) eqn:Hkind; simpl;
        settle.
  - destruct (redirectType (settings url)) eqn:Hkind; simpl;
      settle.
Qed.

(** *** Classification and enrichment of an event *)

Lemma or_else_nonempty (s : option string) (d : string) :
  d <> "" -> Js.or_else s d <> "".
Proof.
  intros Hd. unfold Js.or_else. destruct s as [s|]; [|assumption].
  destruct (String.eqb_spec s ""); assumption.
Qed.

(** C8, as amended.  Given what the parser reports, the classification
    made by the redirect route is a total function of the request: the
    device is mobile, else tablet, else desktop, so that an agent that
    is neither (an unknown one among them) is a desktop and the stored
    device is never [other], the schema default that only an event
    without a device field takes; browser, version, operating system
    and platform are the parser's; the language is the first element
    of Accept-Language, and [unknown] (never the empty string) when
    the header is absent or that element is empty. *)
Theorem gateway_classification (now : Z) (req : Request) (ua : UserAgent) :
  let d := analyticsData now req ua in
  device d = Some (device_class ua) /\
  (device_class ua = "mobile" <-> isMobile ua = true) /\
  (device_class ua = "tablet" <-> isMobile ua = false /\ isTablet ua = true) /\
  (device_class ua = "desktop" <-> isMobile ua = false /\ isTablet ua = false) /\
  a_device (analyticsSchema d) <> "other" /\
  (browser d, browserVersion d, os d, platform d) =
    (ua_browser ua, ua_version ua, ua_os ua, ua_platform ua) /\
  language d = Some (language_of req) /\
  language_of req <> "" /\
  language_of req =
    match header_accept_language req with
    | None => "unknown"
    | Some h => if String.eqb (first_segment h) "" then "unknown" else first_segment h
    end /\
  (forall e, a_device (analyticsSchema e) = "other" <->
             device e = None \/ device e = Some "other").
Proof.
  simpl. unfold device_class.
  split_and!; try reflexivity.
  - destruct (isMobile ua), (isTablet ua); split; (done || discriminate).
  - destruct (isMobile ua), (isTablet ua); split; try done; try discriminate;
      intros [? ?]; discriminate.
  - destruct (isMobile ua), (isTablet ua); split; try done; try discriminate;
      intros [? ?]; discriminate.
  - destruct (isMobile ua), (isTablet ua); discriminate.
  - apply or_else_nonempty. discriminate.
  - unfold language_of. destruct (header_accept_language req); reflexivity.
  - intros e. simpl. destruct (device e) as [dev|]; simpl.
    + split; [intros ->; by right | intros [|[= ->]]; done].
    + split; [by left | reflexivity].
Qed.


(** [recordClick] passes the classification of the event through; it
    does not read [settings.trackDeviceInfo]. *)
Lemma geo_enrich_classification (s : Settings) (d : ClickData) :
  classification (geo_enrich s d) = classification d.
Proof.
  unfold geo_enrich.
  destruct (Js.truthy (ipAddress d) && trackLocation s); [|reflexivity].
  destruct (geoip_lookup _); reflexivity.
Qed.


(** The redirect route hands [recordClick] an event without geographic
    fields. *)
Lemma analyticsData_no_geo (now : Z) (req : Request) (ua : UserAgent) :
  geo_fields (analyticsData now req ua) = no_geo_fields.
Proof. reflexivity. Qed.

(** *** The summary of a link *)

(** The statistics of the window of [days] days that ends at [now]. *)
Lemma summary_recentClicks (now days : Z) (u : Url) :
  recentClicks (getAnalyticsSummary now days u) =
  sum_with day_clicks
    (List.filter (fun stat => days_before now days <=? date stat) (dailyStats u)).
Proof. reflexivity. Qed.

Lemma div_by_length {A : Type} (total : Q) (x : A) (rest : list A) :
  Js.div total (inject_Z (Z.of_nat (length (x :: rest)))) =
  Js.Num (Qred (total / inject_Z (Z.of_nat (length (x :: rest))))).
Proof.
  unfold Js.div.
  destruct (Qeq_bool (inject_Z (Z.of_nat (length (x :: rest)))) 0) eqn:Hzero;
    [|reflexivity].
  apply Qeq_bool_eq in Hzero. unfold Qeq in Hzero. simpl in Hzero. lia.
Qed.

(** C5.  The [averageTimeOnPage] of the summary is the quotient of the
    sum of the daily averages by the number of days in the window,
    without a guard: on a link with no statistics in the window (a
    fresh link, for one) it is [0 / 0], that is [NaN], and not [0];
    on a non-empty window it is the mean of the daily averages. *)
Theorem averageTimeOnPage_of_empty_window_is_NaN
    (now days : Z) (u : Url) (created : Z) (target code : string)
    (alias : option string) (expires : option Z) (s : Settings) :
  averageTimeOnPage
    (getAnalyticsSummary now days (new_Url created target code alias expires s))
    = Js.NaN /\
  averageTimeOnPage (getAnalyticsSummary now days u) =
    match List.filter (fun stat => days_before now days <=? date stat) (dailyStats u) with
    | [] => Js.NaN
    | window =>
        Js.Num (Qred (sumQ_with day_average window
                      / inject_Z (Z.of_nat (length window))))
    end.
Proof.
  split; [reflexivity|]. unfold getAnalyticsSummary. simpl.
  destruct (List.filter _ (dailyStats u)) as [|stat window]; [reflexivity|].
  apply div_by_length.
Qed.

(** *** The growth figures of the two summaries *)

Lemma filter_complement_length {A : Type} (p q : A -> bool) (arr : list A) :
  (forall x, q x = negb (p x)) ->
  (length (List.filter p arr) + length (List.filter q arr) = length arr)%nat.
Proof.
  intros Hq. induction arr as [|x rest IH]; [reflexivity|].
  simpl. rewrite (Hq x). destruct (p x); simpl; lia.
Qed.

(** Rounding to two decimals moves a value by half a hundredth at
    most. *)
Lemma round2_close (q : Q) : to_two_decimals (Js.round2 q) q.
Proof.
  unfold to_two_decimals, Js.round2, Js.round. rewrite Qred_correct.
  pose proof (Qfloor_le (q * 100 + (1 # 2))) as Hlow.
  pose proof (Qlt_floor (q * 100 + (1 # 2))) as Hhigh.
  rewrite inject_Z_plus in Hhigh.
  set (n := inject_Z (Qfloor (q * 100 + (1 # 2)))) in *.
  apply Qabs_Qle_condition. change (inject_Z 1) with 1%Q in Hhigh.
  unfold Qdiv. change (/ 100)%Q with (1 # 100)%Q.
  split; lra.
Qed.

(** C7, as amended.  The summary over the small model reports, to two
    decimals, the URL growth [(current - baseline) / baseline * 100],
    and exactly [100] when the baseline (the links created a month ago
    or earlier) is [0]; with a baseline of one link and two links now
    it reports [100].  Its click growth is [100] when no link is that
    old, the same formula (to two decimals) when the clicks of those
    links are not zero, and [current * 100] when they are zero.  The
    dashboard summary divides by the current total instead: it
    reports, to two decimals, [(current - baseline) / current * 100],
    with the links created before the last month as baseline, and [0]
    for an empty portfolio. *)
Theorem growth_of_the_summaries
    (now : Z) (small : list SmallModel.Url) (urls : list Url) :
  let s := SmallModel.stats_summary month_before days_before now small in
  let older :=
    List.filter (fun u => SmallModel.createdAt u <=? month_before now) small in
  let base := sum_with SmallModel.clicks older in
  let dashboard := stats_summary now urls in
  let baseline :=
    Z.of_nat (length (List.filter (fun u => createdAt u <? month_before now) urls)) in
  to_two_decimals (SmallModel.urlsGrowth s)
    (growth_as_specified (SmallModel.totalUrls s) (Z.of_nat (length older))) /\
  (older = [] -> SmallModel.urlsGrowth s = 100%Q /\ SmallModel.clicksGrowth s = 100%Q) /\
  (length older = 1%nat -> SmallModel.totalUrls s = 2 ->
   SmallModel.urlsGrowth s = 100%Q) /\
  to_two_decimals (SmallModel.clicksGrowth s)
    (match older with
     | [] => 100%Q
     | _ =>
         if base =? 0 then Qred (inject_Z (SmallModel.totalClicks s) / 1 * 100)
         else growth_as_specified (SmallModel.totalClicks s) base
     end) /\
  to_two_decimals (urlGrowth dashboard)
    (if totalUrls dashboard =? 0 then 0%Q
     else Qred (inject_Z (totalUrls dashboard - baseline)
                / inject_Z (totalUrls dashboard) * 100)) /\
  (urls = [] -> urlGrowth dashboard = 0%Q).
Proof.
  intros s older base dashboard baseline.
  assert (Hurls : SmallModel.urlsGrowth s =
                  Js.round2 (growth_as_specified (SmallModel.totalUrls s)
                               (Z.of_nat (length older)))) by reflexivity.
  assert (Hclicks : SmallModel.clicksGrowth s =
                    Js.round2
                      (match older with
                       | [] => 100%Q
                       | _ =>
                           if base =? 0
                           then Qred (inject_Z (SmallModel.totalClicks s) / 1 * 100)
                           else growth_as_specified (SmallModel.totalClicks s) base
                       end)).
  { subst s older base. unfold SmallModel.stats_summary. simpl.
    unfold SmallModel.aggregate_clicks, SmallModel.clicks_growth, growth_as_specified.
    destruct (List.filter _ small) as [|u older]; [reflexivity|].
    destruct (sum_with SmallModel.clicks (u :: older) =? 0) eqn:Hzero; [|reflexivity].
    apply Z.eqb_eq in Hzero. rewrite Hzero. by rewrite Z.sub_0_r. }
  assert (Hdash : urlGrowth dashboard =
                  Js.round2
                    (if totalUrls dashboard =? 0 then 0%Q
                     else Qred (inject_Z (totalUrls dashboard - baseline)
                                / inject_Z (totalUrls dashboard) * 100))).
  { subst dashboard baseline. unfold stats_summary. simpl.
    destruct (Z.of_nat (length urls) =? 0); [reflexivity|].
    pose proof (filter_complement_length
                  (fun url => month_before now <=? createdAt url)
                  (fun url => createdAt url <? month_before now) urls) as Hlen.
    replace (Z.of_nat (length urls) -
             Z.of_nat (length (List.filter
                                 (fun u => createdAt u <? month_before now) urls)))
      with (Z.of_nat (length (List.filter
                                (fun url => month_before now <=? createdAt url) urls)));
      [reflexivity|].
    rewrite <- Hlen; [lia|]. intros x. simpl. lia. }
  split_and!.
  - rewrite Hurls. apply round2_close.
  - intros Hnone. rewrite Hurls, Hclicks, Hnone. split; reflexivity.
  - intros Hone Htwo. rewrite Hurls, Hone, Htwo. reflexivity.
  - rewrite Hclicks. apply round2_close.
  - rewrite Hdash. apply round2_close.
  - intros ->. reflexivity.
Qed.

(** *** More on the counters, the ledger and the daily statistics *)

Lemma sum_with_acc {A : Type} (f : A -> Z) (arr : list A) (acc : Z) :
  fold_left (fun sum x => sum + f x) arr acc = acc + sum_with f arr.
Proof.
  unfold sum_with. revert acc.
  induction arr as [|x rest IH]; intros acc; simpl; [lia|].
  rewrite (IH (acc + f x)), (IH (0 + f x)). lia.
Qed.

Lemma sum_with_cons {A : Type} (f : A -> Z) (x : A) (arr : list A) :
  sum_with f (x :: arr) = f x + sum_with f arr.
Proof. unfold sum_with at 1. simpl. rewrite sum_with_acc. lia. Qed.

Lemma sum_with_app {A : Type} (f : A -> Z) (l k : list A) :
  sum_with f (l ++ k) = sum_with f l + sum_with f k.
Proof.
  induction l as [|x l IH]; simpl; [reflexivity|].
  rewrite !sum_with_cons, IH. lia.
Qed.

Lemma sum_with_nonneg {A : Type} (f : A -> Z) (arr : list A) :
  Forall (fun x => 0 <= f x) arr -> 0 <= sum_with f arr.
Proof.
  induction 1 as [|x rest Hx _ IH]; [reflexivity|]. rewrite sum_with_cons. lia.
Qed.

Lemma sum_with_filter_le {A : Type} (f : A -> Z) (p : A -> bool) (arr : list A) :
  Forall (fun x => 0 <= f x) arr -> sum_with f (List.filter p arr) <= sum_with f arr.
Proof.
  induction 1 as [|x rest Hx _ IH]; simpl; [reflexivity|].
  destruct (p x); rewrite ?sum_with_cons; lia.
Qed.

Lemma sum_with_drop_le {A : Type} (f : A -> Z) (n : nat) (arr : list A) :
  Forall (fun x => 0 <= f x) arr -> sum_with f (drop n arr) <= sum_with f arr.
Proof.
  intros Hall. rewrite <- (take_drop n arr) at 2. rewrite sum_with_app.
  assert (0 <= sum_with f (take n arr)); [|lia].
  apply sum_with_nonneg. by apply Forall_take.
Qed.

Lemma sum_with_alter {A : Type} (f : A -> Z) (g : A -> A) (i : nat) (arr : list A) (x : A) :
  arr !! i = Some x ->
  sum_with f (alter g i arr) = sum_with f arr + (f (g x) - f x).
Proof.
  revert i. induction arr as [|y rest IH]; intros [|i] Hi; try discriminate.
  - injection Hi as ->. change (alter g 0%nat (x :: rest)) with (g x :: rest).
    rewrite !sum_with_cons. lia.
  - change (alter g (S i) (y :: rest)) with (y :: alter g i rest).
    rewrite !sum_with_cons, (IH i Hi). lia.
Qed.

Lemma recordClick_uniqueVisitors (now : Z) (d : ClickData) (u : Url) :
  uniqueVisitors (recordClick now d u) =
  update_ledger now (ipAddress d)
    (findIndex (same_ip (ipAddress d)) (uniqueVisitors u)) (uniqueVisitors u).
Proof.
  unfold recordClick. rewrite settled_uniqueVisitors. simpl.
  by rewrite geo_enrich_ipAddress.
Qed.

(** X1.  A run of [recordClick] calls keeps the counters in order: the
    unique clicks stay between [0] and the clicks, and the log never
    holds more events than the click counter says. *)
Theorem record_all_keeps_counters (calls : list (Z * ClickData)) (u : Url) :
  counters_ok u -> counters_ok (record_all calls u).
Proof.
  intros Hok. induction calls as [|call calls IH] using rev_ind; [exact Hok|].
  rewrite record_all_snoc. destruct IH as [[Hlow Hhigh] Hlog].
  unfold counters_ok.
  rewrite recordClick_clicks, recordClick_uniqueClicks, recordClick_analytics,
    slice_last_length, length_app.
  simpl. destruct (decide _); lia.
Qed.

Lemma visits_from_snoc (ip : option string) (calls : list (Z * ClickData))
    (call : Z * ClickData) :
  visits_from ip (calls ++ [call]) =
  visits_from ip calls + (if decide (ipAddress call.2 = ip) then 1 else 0).
Proof.
  unfold visits_from. rewrite List.filter_app, length_app. simpl.
  destruct (decide (ipAddress call.2 = ip)) as [Heq|Hne].
  - rewrite bool_decide_eq_true_2 by assumption. simpl. lia.
  - rewrite bool_decide_eq_false_2 by assumption. simpl. lia.
Qed.

Lemma visits_from_absent (ip : option string) (calls : list (Z * ClickData)) :
  ip ∉ ips calls -> visits_from ip calls = 0.
Proof.
  unfold visits_from, ips. induction calls as [|call calls IH]; [reflexivity|].
  rewrite fmap_cons, not_elem_of_cons. intros [Hne Hnot]. simpl.
  rewrite bool_decide_eq_false_2 by congruence. by apply IH.
Qed.

(** After a run on a link whose counters and ledger are empty, every
    entry of the ledger holds the number of calls from its address. *)
Lemma record_all_visits (calls : list (Z * ClickData)) (u : Url) :
  clicks u = 0 -> uniqueClicks u = 0 -> uniqueVisitors u = [] ->
  Forall (fun v => totalVisits v = visits_from (visitor_ip v) calls)
    (uniqueVisitors (record_all calls u)).
Proof.
  intros Hc Hu Hl. induction calls as [|call calls IH] using rev_ind.
  - simpl. rewrite Hl. constructor.
  - destruct (record_all_ledger calls u Hc Hu Hl) as (_ & _ & Hnd & Hin).
    simpl in Hnd, Hin. rewrite record_all_snoc, recordClick_uniqueVisitors.
    set (ledger := uniqueVisitors (record_all calls u)) in *.
    destruct (findIndex (same_ip (ipAddress call.2)) ledger) as [i|] eqn:Hfind; simpl.
    + destruct (findIndex_Some _ _ _ Hfind) as (v & Hv & Hsame).
      unfold same_ip in Hsame. apply bool_decide_eq_true in Hsame.
      rewrite Forall_lookup in IH. apply Forall_lookup. intros j w Hw.
      rewrite visits_from_snoc. destruct (decide (i = j)) as [<-|Hij].
      * rewrite list_lookup_alter_eq, Hv in Hw. injection Hw as <-. simpl.
        rewrite (IH i v Hv), decide_True by (symmetry; exact Hsame). reflexivity.
      * rewrite list_lookup_alter_ne in Hw by assumption.
        rewrite (IH j w Hw), decide_False; [lia|].
        intros Heq. apply Hij.
        apply (NoDup_lookup (ledger_ips (record_all calls u)) i j (visitor_ip v));
          [exact Hnd | |]; unfold ledger_ips; rewrite list_lookup_fmap.
        -- fold ledger. by rewrite Hv.
        -- fold ledger. rewrite Hw. simpl. congruence.
    + apply same_ip_absent in Hfind.
      apply Forall_app. split.
      * apply Forall_forall. intros w Hw. rewrite visits_from_snoc.
        rewrite Forall_forall in IH. rewrite (IH w Hw), decide_False; [lia|].
        intros Heq. apply Hfind. rewrite Heq. by apply list_elem_of_fmap_2.
      * constructor; [|constructor]. simpl. rewrite visits_from_snoc.
        rewrite decide_True by reflexivity.
        rewrite visits_from_absent; [reflexivity|].
        intros Hin'. apply Hfind. by apply Hin.
Qed.

(** X2.  After a run of [recordClick] calls on a freshly created link
    the ledger has exactly one entry for every address of the run, and
    its [totalVisits] is the number of calls from that address. *)
Theorem ledger_counts_visits
    (created : Z) (target code : string) (alias : option string)
    (expires : option Z) (s : Settings) (calls : list (Z * ClickData)) :
  let u := record_all calls (new_Url created target code alias expires s) in
  NoDup (ledger_ips u) /\
  (forall ip, ip ∈ ips calls <->
              exists v, v ∈ uniqueVisitors u /\ visitor_ip v = ip) /\
  (forall v, v ∈ uniqueVisitors u ->
             totalVisits v = visits_from (visitor_ip v) calls /\ 1 <= totalVisits v).
Proof.
  intros u.
  destruct (record_all_ledger calls (new_Url created target code alias expires s))
    as (_ & _ & Hnd & Hin); [reflexivity..|].
  pose proof (record_all_visits calls (new_Url created target code alias expires s)
                eq_refl eq_refl eq_refl) as Hvisits.
  fold u in Hnd, Hin, Hvisits. split_and!.
  - exact Hnd.
  - intros ip. rewrite <- Hin. unfold ledger_ips. rewrite list_elem_of_fmap.
    split; intros (v & ? & ?); exists v; split; done.
  - intros v Hv. rewrite Forall_forall in Hvisits. split; [by apply Hvisits|].
    rewrite (Hvisits v Hv).
    assert (Hip : visitor_ip v ∈ ips calls)
      by (apply Hin; unfold ledger_ips; by apply list_elem_of_fmap_2).
    unfold visits_from, ips in *. apply list_elem_of_fmap in Hip as (call & Heq & Hcall).
    assert (Hmem : call ∈ List.filter
                     (fun call => bool_decide (ipAddress call.2 = visitor_ip v)) calls).
    { apply list_elem_of_In, List.filter_In. split; [by apply list_elem_of_In|].
      by apply bool_decide_eq_true. }
    destruct (List.filter _ calls); [by apply elem_of_nil in Hmem | simpl; lia].
Qed.

Lemma count_click_dates (new_visitor : bool) (d : ClickData) (i : nat)
    (stats : list DailyStat) :
  date <$> alter (count_click new_visitor d) i stats = date <$> stats.
Proof.
  revert i. induction stats as [|stat rest IH]; intros [|i]; simpl; try reflexivity.
  f_equal. apply IH.
Qed.

Lemma today_absent (today : Z) (stats : list DailyStat) :
  findIndex (fun stat => date stat =? today) stats = None -> today ∉ date <$> stats.
Proof.
  rewrite findIndex_None, Forall_forall, list_elem_of_fmap.
  intros Hall (stat & -> & Hstat). specialize (Hall stat Hstat). lia.
Qed.

(** What [recordClick] does to the daily statistics before it evicts:
    the days stay distinct, the unique visitors of a day stay among its
    clicks, and the clicks of the days grow by one, or not at all when
    the click opens a day. *)
Lemma update_dailyStats_ok (today : Z) (new_visitor : bool) (d : ClickData)
    (stats : list DailyStat) :
  NoDup (date <$> stats) ->
  Forall (fun stat => 0 <= day_uniqueVisitors stat <= day_clicks stat) stats ->
  let stats' := update_dailyStats today new_visitor d stats in
  NoDup (date <$> stats') /\
  Forall (fun stat => 0 <= day_uniqueVisitors stat <= day_clicks stat) stats' /\
  sum_with day_clicks stats' =
    sum_with day_clicks stats + (if decide (today ∈ date <$> stats) then 1 else 0).
Proof.
  intros Hnd Hall stats'. subst stats'. unfold update_dailyStats.
  destruct (findIndex _ stats) as [i|] eqn:Hfind.
  - destruct (findIndex_Some _ _ _ Hfind) as (stat & Hstat & _).
    split_and!.
    + by rewrite count_click_dates.
    + apply Forall_alter; [assumption|]. intros x _ Hx. simpl.
      destruct new_visitor; lia.
    + rewrite (sum_with_alter _ _ _ _ stat Hstat). simpl.
      destruct (decide (today ∈ date <$> stats)) as [|Hnot]; [lia|].
      exfalso. apply Hnot.
      destruct (findIndex_Some _ _ _ Hfind) as (found & Hfound & Hdate).
      apply list_elem_of_fmap. exists found.
      split; [lia | by eapply list_elem_of_lookup_2].
  - pose proof (today_absent _ _ Hfind) as Hnot. split_and!.
    + rewrite fmap_app. apply NoDup_app.
      split_and!; [assumption | | apply NoDup_singleton].
      intros day Hday ->%list_elem_of_singleton.
      by apply (today_absent _ _ Hfind).
    + apply Forall_app. split; [assumption|]. constructor; [|constructor].
      simpl. lia.
    + rewrite sum_with_app, sum_with_cons. simpl. unfold sum_with. simpl.
      destruct (decide (today ∈ date <$> stats)); [contradiction | lia].
Qed.

Lemma recordClick_rollups (now : Z) (d : ClickData) (u : Url) :
  rollups_ok u -> rollups_ok (recordClick now d u).
Proof.
  intros (Hnd & Hall & Hsum). unfold rollups_ok.
  rewrite recordClick_dailyStats, recordClick_clicks.
  destruct (update_dailyStats_ok (local_midnight now)
              (bool_decide (ipAddress d ∉ ledger_ips u))
              (geo_enrich (settings u) d) (dailyStats u) Hnd Hall)
    as (Hnd' & Hall' & Hsum').
  unfold slice_last. split_and!.
  - rewrite fmap_drop. exact (sublist_NoDup _ _ Hnd' (sublist_drop _ _)).
  - by apply Forall_drop.
  - etransitivity; [apply sum_with_drop_le|].
    + eapply Forall_impl; [exact Hall'|]. simpl. intros stat ?. lia.
    + rewrite Hsum'. destruct (decide _); lia.
Qed.

(** X3.  [recordClick] keeps the daily statistics in order: there is
    still one entry per day, in every entry the unique visitors are
    among the clicks, and the clicks of the days do not exceed the
    clicks of the link. *)
Theorem recordClick_keeps_rollups (now : Z) (d : ClickData) (u : Url) :
  rollups_ok u -> rollups_ok (recordClick now d u).
Proof. intros Hok. exact (recordClick_rollups now d u Hok). Qed.

Lemma record_all_keeps_rollups (calls : list (Z * ClickData)) (u : Url) :
  rollups_ok u -> rollups_ok (record_all calls u).
Proof.
  intros Hok. induction calls as [|call calls IH] using rev_ind; [exact Hok|].
  rewrite record_all_snoc. by apply recordClick_rollups.
Qed.

(** X4.  Whatever was recorded on a freshly created link, and whatever
    the window, the summary reports recent clicks between [0] and the
    total clicks, and as many points in [clicksByDay] as there are
    distinct days in it. *)
Theorem summary_recentClicks_bounded
    (created : Z) (target code : string) (alias : option string)
    (expires : option Z) (s : Settings) (calls : list (Z * ClickData)) (now days : Z) :
  let summary :=
    getAnalyticsSummary now days
      (record_all calls (new_Url created target code alias expires s)) in
  0 <= recentClicks summary <= totalClicks summary /\
  NoDup (point_date <$> clicksByDay summary) /\
  (length (clicksByDay summary) <= 30)%nat.
Proof.
  set (u := record_all calls (new_Url created target code alias expires s)).
  assert (Hok : rollups_ok u).
  { apply record_all_keeps_rollups. unfold rollups_ok. simpl.
    split_and!; [constructor | constructor | reflexivity]. }
  destruct Hok as (Hnd & Hall & Hsum). simpl.
  assert (Hpos : Forall (fun stat => 0 <= day_clicks stat) (dailyStats u))
    by (eapply Forall_impl; [exact Hall|]; simpl; intros stat ?; lia).
  split_and!.
  - apply sum_with_nonneg.
    apply Forall_forall. intros stat Hstat%list_elem_of_In%List.filter_In.
    rewrite Forall_forall in Hpos. apply Hpos. apply list_elem_of_In.
    exact (proj1 Hstat).
  - etransitivity; [by apply sum_with_filter_le | exact Hsum].
  - rewrite <- list_fmap_compose.
    change (point_date ∘ _) with date.
    refine (sublist_NoDup _ _ Hnd _).
    apply fmap_sublist. clear. induction (dailyStats u) as [|stat rest IH]; simpl;
      [constructor|]. destruct (_ <=? _); by constructor.
  - rewrite length_fmap.
    assert (Hlen : (length (dailyStats u) <= 30)%nat).
    { subst u. destruct calls as [|call calls _] using rev_ind; [simpl; lia|].
      rewrite record_all_snoc, recordClick_dailyStats, slice_last_length. lia. }
    etransitivity; [|exact Hlen]. clear.
    induction (dailyStats u) as [|stat rest IH]; simpl; [lia|].
    destruct (_ <=? _); simpl; lia.
Qed.

(** *** Sorting and the leaderboards *)

Lemma insert_desc_Permutation {A : Type} (key : A -> Z) (x : A) (sorted : list A) :
  insert_desc key x sorted ≡ₚ x :: sorted.
Proof.
  induction sorted as [|y rest IH]; simpl; [reflexivity|].
  destruct (key x <? key y); [|reflexivity].
  rewrite IH. apply Permutation_swap.
Qed.

Lemma sort_desc_Permutation {A : Type} (key : A -> Z) (arr : list A) :
  sort_desc key arr ≡ₚ arr.
Proof.
  induction arr as [|x rest IH]; simpl; [reflexivity|].
  rewrite insert_desc_Permutation. by f_equiv.
Qed.

Lemma insert_desc_sorted {A : Type} (key : A -> Z) (x : A) (sorted : list A) :
  StronglySorted (fun a b => key b <= key a) sorted ->
  StronglySorted (fun a b => key b <= key a) (insert_desc key x sorted).
Proof.
  induction 1 as [|y rest Hrest IH Hy]; simpl.
  - repeat constructor.
  - destruct (Z.ltb_spec (key x) (key y)) as [Hlt|Hge].
    + constructor; [exact IH|]. rewrite insert_desc_Permutation.
      constructor; [lia | exact Hy].
    + constructor; [by constructor|]. constructor; [exact Hge|].
      eapply Forall_impl; [exact Hy|]. simpl. intros b ?. lia.
Qed.

Lemma sort_desc_sorted {A : Type} (key : A -> Z) (arr : list A) :
  StronglySorted (fun a b => key b <= key a) (sort_desc key arr).
Proof.
  induction arr as [|x rest IH]; simpl; [constructor|]. by apply insert_desc_sorted.
Qed.

Lemma take_sorted {A : Type} (R : A -> A -> Prop) (n : nat) (arr : list A) :
  StronglySorted R arr -> StronglySorted R (take n arr).
Proof.
  intros Hsorted. rewrite <- (take_drop n arr) in Hsorted.
  by apply StronglySorted_app_1_l in Hsorted.
Qed.

Lemma map_get_set (k k' : string) (v : Z) (m : list (string * Z)) :
  map_get k' (map_set k v m) = if decide (k = k') then Some v else map_get k' m.
Proof.
  induction m as [|[k0 v0] rest IH]; simpl.
  - destruct (String.eqb_spec k k'), (decide (k = k')); congruence.
  - destruct (String.eqb_spec k0 k) as [->|Hne]; simpl.
    + destruct (String.eqb_spec k k'), (decide (k = k')); congruence.
    + rewrite IH. destruct (String.eqb_spec k0 k'), (decide (k = k')); congruence.
Qed.

Lemma map_set_keys (k : string) (v : Z) (m : list (string * Z)) :
  Permutation (fst <$> m) (fst <$> map_set k v m) \/
  ((k ∉ (fst <$> m)) /\ (fst <$> map_set k v m) = (fst <$> m) ++ [k]).
Proof.
  induction m as [|[k0 v0] rest IH].
  - right. split; [apply not_elem_of_nil | reflexivity].
  - cbn [map_set]. destruct (String.eqb_spec k0 k) as [->|Hne]; [by left|].
    rewrite !fmap_cons. cbn [fst].
    destruct IH as [Hperm|[Hnot Heq]].
    + left. by f_equiv.
    + right. rewrite Heq. split; [|reflexivity].
      rewrite not_elem_of_cons. split; [congruence | assumption].
Qed.

Lemma map_set_NoDup (k : string) (v : Z) (m : list (string * Z)) :
  NoDup (fst <$> m) -> NoDup (fst <$> map_set k v m).
Proof.
  intros Hnd. destruct (map_set_keys k v m) as [Hperm|[Hnot Heq]].
  - by rewrite <- Hperm.
  - rewrite Heq. apply NoDup_app. split_and!; [assumption | | apply NoDup_singleton].
    intros x Hx ->%list_elem_of_singleton. contradiction.
Qed.

Lemma map_get_elem_of (k : string) (v : Z) (m : list (string * Z)) :
  NoDup (fst <$> m) -> (k, v) ∈ m <-> map_get k m = Some v.
Proof.
  induction m as [|[k0 v0] rest IH]; simpl; intros Hnd.
  - split; [intros []%elem_of_nil | discriminate].
  - apply NoDup_cons in Hnd as [Hk0 Hnd]. rewrite elem_of_cons, (IH Hnd).
    destruct (String.eqb_spec k0 k) as [->|Hne].
    + split; [intros [[= ->]|Hget]; [reflexivity|] | intros [= ->]; by left].
      exfalso. apply Hk0. apply (IH Hnd) in Hget.
      by apply (list_elem_of_fmap_2 fst) in Hget.
    + split; [intros [[= ? ?]|?]; [congruence | assumption] | by right].
Qed.

Lemma filter_name_absent (name : string) (entries : list (string * Z)) :
  name ∉ fst <$> entries ->
  List.filter (fun e => String.eqb e.1 name) entries = [].
Proof.
  induction entries as [|[k v] entries IH]; [reflexivity|].
  rewrite fmap_cons, not_elem_of_cons. cbn [fst]. intros [Hk Hrest]. cbn [List.filter fst].
  destruct (String.eqb_spec k name); [congruence | by apply IH].
Qed.

(** The map that [getTopFromMaps] aggregates. *)
Lemma aggregated_entries (entries : list (string * Z)) (agg : list (string * Z)) :
  NoDup (fst <$> agg) ->
  let agg' := fold_left (fun agg e => map_add e.1 e.2 agg) entries agg in
  NoDup (fst <$> agg') /\
  forall name,
    map_get name agg' =
    if decide (name ∈ fst <$> entries) then
      Some (default 0 (map_get name agg)
            + sum_with snd (List.filter (fun e => String.eqb e.1 name) entries))
    else map_get name agg.
Proof.
  revert agg. induction entries as [|[k v] entries IH]; intros agg Hnd agg'; subst agg'.
  - split; [assumption|]. intros name.
    destruct (decide (name ∈ fst <$> [])) as [Hin|]; [|reflexivity].
    by apply elem_of_nil in Hin.
  - cbn [fold_left fst snd].
    destruct (IH (map_add k v agg)) as [Hnd' Hget]; [by apply map_set_NoDup|].
    split; [exact Hnd'|]. intros name. rewrite (Hget name).
    unfold map_add at 1 2. rewrite map_get_set. rewrite fmap_cons. cbn [fst List.filter].
    destruct (String.eqb_spec k name) as [->|Hne].
    + rewrite (decide_True (P := name = name)) by reflexivity.
      rewrite (decide_True (P := name ∈ name :: _)) by left.
      rewrite sum_with_cons. cbn [snd default from_option id].
      destruct (decide (name ∈ fst <$> entries)) as [Hin|Hnot].
      * f_equal. lia.
      * f_equal. rewrite (filter_name_absent _ _ Hnot). unfold sum_with. simpl. lia.
    + rewrite (decide_False (P := k = name)) by assumption.
      destruct (decide (name ∈ fst <$> entries)) as [Hin|Hnot].
      * rewrite decide_True by (by right). reflexivity.
      * rewrite decide_False; [reflexivity|].
        rewrite not_elem_of_cons. split; [congruence | assumption].
Qed.

Lemma total_of_cons (key : DailyStat -> list (string * Z)) (name : string)
    (stat : DailyStat) (stats : list DailyStat) :
  total_of key name (stat :: stats) =
  sum_with snd (List.filter (fun e => String.eqb e.1 name) (key stat))
  + total_of key name stats.
Proof. unfold total_of. by rewrite sum_with_cons. Qed.

Lemma total_of_absent (key : DailyStat -> list (string * Z)) (name : string)
    (stats : list DailyStat) :
  ~ Exists (fun stat => name ∈ fst <$> key stat) stats -> total_of key name stats = 0.
Proof.
  induction stats as [|stat stats IH]; intros Hnex; [reflexivity|].
  rewrite total_of_cons, IH by (intros ?; apply Hnex; by right).
  rewrite filter_name_absent; [reflexivity|]. intros ?. apply Hnex. by left.
Qed.

Lemma aggregated_stats (key : DailyStat -> list (string * Z)) (stats : list DailyStat)
    (agg : list (string * Z)) :
  NoDup (fst <$> agg) ->
  let agg' :=
    fold_left
      (fun agg stat => fold_left (fun agg e => map_add e.1 e.2 agg) (key stat) agg)
      stats agg in
  NoDup (fst <$> agg') /\
  forall name,
    map_get name agg' =
    if decide (Exists (fun stat => name ∈ fst <$> key stat) stats) then
      Some (default 0 (map_get name agg) + total_of key name stats)
    else map_get name agg.
Proof.
  revert agg. induction stats as [|stat stats IH]; intros agg Hnd agg'; subst agg'.
  - split; [assumption|]. intros name.
    destruct (decide _) as [Hex|]; [|reflexivity]. by apply Exists_nil in Hex.
  - cbn [fold_left].
    destruct (aggregated_entries (key stat) agg Hnd) as [Hnd1 Hget1].
    destruct (IH _ Hnd1) as [Hnd' Hget]. split; [exact Hnd'|].
    intros name. rewrite (Hget name), (Hget1 name), total_of_cons.
    destruct (decide (Exists (fun stat => name ∈ fst <$> key stat) stats)) as [Hex|Hnex];
      destruct (decide (name ∈ fst <$> key stat)) as [Hin|Hnin].
    + rewrite decide_True by (by right). cbn [default from_option id]. f_equal. lia.
    + rewrite decide_True by (by right). f_equal.
      rewrite (filter_name_absent _ _ Hnin). unfold sum_with at 1. simpl. lia.
    + rewrite decide_True by (by left). f_equal.
      rewrite (total_of_absent _ _ _ Hnex). lia.
    + rewrite decide_False; [reflexivity|].
      intros [?|?]%Exists_cons; contradiction.
Qed.

Lemma aggregated_from_empty (key : DailyStat -> list (string * Z))
    (stats : list DailyStat) :
  let agg :=
    fold_left
      (fun agg stat => fold_left (fun agg e => map_add e.1 e.2 agg) (key stat) agg)
      stats [] in
  NoDup (fst <$> agg) /\
  forall name count,
    (name, count) ∈ agg <->
    Exists (fun stat => name ∈ fst <$> key stat) stats /\
    count = total_of key name stats.
Proof.
  intros agg. destruct (aggregated_stats key stats [] (NoDup_nil_2)) as [Hnd Hget].
  fold agg in Hnd, Hget. split; [exact Hnd|]. intros name count.
  rewrite (map_get_elem_of _ _ _ Hnd), (Hget name).
  destruct (decide _) as [Hex|Hnex]; simpl.
  - split; [intros [= <-]; split; [assumption | lia] | intros [_ ->]; f_equal; lia].
  - split; [discriminate | intros [? _]; contradiction].
Qed.

(** X5.  A leaderboard of [getTopFromMaps] has at most [limit] entries,
    no name twice, and counts in descending order; the count beside a
    name is the total that the maps of the given days hold for it. *)
Theorem getTopFromMaps_is_a_leaderboard
    (stats : list DailyStat) (key : DailyStat -> list (string * Z)) (limit : nat) :
  let top := getTopFromMaps stats key limit in
  (length top <= limit)%nat /\
  NoDup (fst <$> top) /\
  StronglySorted (fun a b => b.2 <= a.2) top /\
  (forall name count,
      (name, count) ∈ top ->
      Exists (fun stat => name ∈ fst <$> key stat) stats /\
      count = total_of key name stats).
Proof.
  intros top. subst top. unfold getTopFromMaps.
  destruct (aggregated_from_empty key stats) as [Hnd Hin].
  set (agg := fold_left _ stats []) in *.
  pose proof (sort_desc_Permutation snd agg) as Hperm.
  split_and!.
  - rewrite length_take. lia.
  - rewrite fmap_take. refine (sublist_NoDup _ _ _ (sublist_take _ _)).
    by rewrite Hperm.
  - apply take_sorted, sort_desc_sorted.
  - intros name count Htop. apply Hin. rewrite <- Hperm.
    apply elem_of_take in Htop as (i & Hi & _). by eapply list_elem_of_lookup_2.
Qed.

(** X6.  A name that some map of the given days holds is either on the
    leaderboard, with its total, or the leaderboard is full and every
    count on it is at least the total of that name. *)
Theorem getTopFromMaps_keeps_the_largest
    (stats : list DailyStat) (key : DailyStat -> list (string * Z)) (limit : nat)
    (name : string) :
  Exists (fun stat => name ∈ fst <$> key stat) stats ->
  let top := getTopFromMaps stats key limit in
  (name, total_of key name stats) ∈ top \/
  (length top = limit /\ forall e, e ∈ top -> total_of key name stats <= e.2).
Proof.
  intros Hex top. subst top. unfold getTopFromMaps.
  destruct (aggregated_from_empty key stats) as [Hnd Hin].
  set (agg := fold_left _ stats []) in *.
  assert (Hmem : (name, total_of key name stats) ∈ sort_desc snd agg).
  { rewrite sort_desc_Permutation. apply Hin. split; [assumption | reflexivity]. }
  pose proof (sort_desc_sorted snd agg) as Hsorted.
  rewrite <- (take_drop limit (sort_desc snd agg)) in Hmem, Hsorted.
  apply elem_of_app in Hmem as [Htake|Hdrop]; [by left|]. right. split.
  - rewrite length_take. apply Nat.min_l.
    destruct (Nat.le_gt_cases limit (length (sort_desc snd agg))) as [|Hshort];
      [assumption|].
    rewrite drop_ge in Hdrop by lia. by apply elem_of_nil in Hdrop.
  - intros e He.
    exact (StronglySorted_app_1_elem_of _ _ _ e _ Hsorted He Hdrop).
Qed.

(** *** A day of clicks *)

Lemma same_day_rollup (day : Z) (calls : list (Z * ClickData)) (u : Url) :
  clicks u = 0 -> uniqueClicks u = 0 -> uniqueVisitors u = [] -> dailyStats u = [] ->
  Forall (fun call => local_midnight call.1 = day) calls ->
  (fun stat => (date stat, day_clicks stat, day_uniqueVisitors stat))
    <$> dailyStats (record_all calls u) =
  match calls with
  | [] => []
  | _ => [(day, Z.of_nat (length calls) - 1, uniqueClicks (record_all calls u) - 1)]
  end.
Proof.
  intros Hc Hu Hl Hd. induction calls as [|call calls IH] using rev_ind; intros Hday.
  - simpl. by rewrite Hd.
  - apply Forall_app in Hday as [Hdays Hlast].
    apply Forall_inv in Hlast. simpl in Hlast. specialize (IH Hdays).
    rewrite record_all_snoc, recordClick_dailyStats, recordClick_uniqueClicks, Hlast.
    set (v := record_all calls u) in *.
    assert (Hshape : exists rest, calls ++ [call] = (rest.1 :: rest.2))
      by (destruct calls as [|c0 cs]; [by exists (call, []) | by exists (c0, cs ++ [call])]).
    destruct Hshape as [[c0 cs] Hshape]. rewrite Hshape. rewrite <- Hshape.
    rewrite length_app. simpl length.
    destruct calls as [|c1 calls'].
    + destruct (dailyStats v) as [|? ?] eqn:Hstats; [|discriminate].
      assert (Hempty : ledger_ips v = []).
      { unfold ledger_ips. subst v. simpl. by rewrite Hl. }
      rewrite Hempty. unfold update_dailyStats. simpl.
      unfold v. simpl. rewrite Hu. reflexivity.
    + destruct (dailyStats v) as [|stat [|? ?]] eqn:Hstats; try discriminate.
      simpl in IH. injection IH as Hdate Hclicks Hvisitors.
      unfold update_dailyStats. simpl. rewrite Hdate, Z.eqb_refl. simpl.
      unfold slice_last. simpl.
      destruct (decide (ipAddress call.2 ∈ ledger_ips v)) as [Hin|Hnot].
      * rewrite bool_decide_eq_false_2 by (intros Hn; by apply Hn).
        rewrite Hdate, Hclicks, Hvisitors.
        do 3 f_equal. lia.
      * rewrite bool_decide_eq_true_2 by assumption.
        rewrite Hdate, Hclicks, Hvisitors.
        do 3 f_equal; lia.
Qed.

(** X7.  After a run of one or more [recordClick] calls on a freshly
    created link, all made on the same local day, [dailyStats] holds one
    entry, that of the day; the call that opens the day is not counted
    in it: its clicks are the number of calls less one, and its unique
    visitors the number of distinct addresses less one. *)
Theorem one_day_of_clicks
    (created : Z) (target code : string) (alias : option string)
    (expires : option Z) (s : Settings) (day : Z) (calls : list (Z * ClickData)) :
  calls <> [] ->
  Forall (fun call => local_midnight call.1 = day) calls ->
  (fun stat => (date stat, day_clicks stat, day_uniqueVisitors stat))
    <$> dailyStats (record_all calls (new_Url created target code alias expires s)) =
  [(day, Z.of_nat (length calls) - 1, Z.of_nat (distinct (ips calls)) - 1)].
Proof.
  intros Hne Hday.
  rewrite (same_day_rollup day calls (new_Url created target code alias expires s)
             eq_refl eq_refl eq_refl eq_refl Hday).
  destruct (record_all_counts calls (new_Url created target code alias expires s))
    as [_ Huniq]; [reflexivity..|].
  rewrite Huniq. by destruct calls.
Qed.

(** *** The redirect route, once more *)







(** X9.  [GET /:shortCode] changes at most the document it resolves the
    code to: the collection keeps its length, every document that does
    not resolve the code stays as it is, and when no document resolves
    the code the answer is 404 and nothing changes. *)
Theorem get_shortCode_frame (now : Z) (req : Request) (code : string) (db : list Url) :
  let db' := (get_shortCode now req code db).2 in
  length db' = length db /\
  (forall j url, db !! j = Some url -> resolves code url = false ->
                 db' !! j = Some url) /\
  (Forall (fun url => resolves code url = false) db ->
   get_shortCode now req code db = (NotFound, db)).
Proof.
  unfold get_shortCode.
  destruct (findIndex (resolves code) db) as [i|] eqn:Hfind.
  - destruct (findIndex_Some _ _ _ Hfind) as (url & Hurl & Hres). rewrite Hurl.
    destruct (serve now req url) as [res url']. simpl. split_and!.
    + apply length_insert.
    + intros j other Hother Hno. rewrite list_lookup_insert_ne; [assumption|].
      intros <-. congruence.
    + intros Hall. apply findIndex_None in Hall. congruence.
  - simpl. split_and!; done.
Qed.

(** *** The figures of the two summaries *)

Lemma round2_monotone (q r : Q) : (q <= r)%Q -> (Js.round2 q <= Js.round2 r)%Q.
Proof.
  intros Hle. unfold Js.round2, Js.round. rewrite !Qred_correct.
  apply Qmult_le_compat_r; [|discriminate].
  rewrite <- Zle_Qle. apply Qfloor_resp_le.
  apply Qplus_le_compat; [|apply Qle_refl].
  apply Qmult_le_compat_r; [exact Hle | discriminate].
Qed.

Lemma share_bounds (part whole : Z) :
  0 <= part <= whole -> 0 < whole ->
  (0 <= Qred (inject_Z part / inject_Z whole * 100) <= 100)%Q.
Proof.
  intros [Hlow Hhigh] Hpos. rewrite Qred_correct.
  assert (Hwhole : (0 < inject_Z whole)%Q) by (unfold Qlt; simpl; lia).
  assert (Hpart : (0 <= inject_Z part)%Q) by (unfold Qle; simpl; lia).
  split.
  - apply Qmult_le_0_compat; [|discriminate].
    apply Qle_shift_div_l; [exact Hwhole|]. by rewrite Qmult_0_l.
  - change 100%Q with (1 * 100)%Q at 2.
    apply Qmult_le_compat_r; [|discriminate].
    apply Qle_shift_div_r; [exact Hwhole|]. rewrite Qmult_1_l.
    rewrite <- Zle_Qle. lia.
Qed.

Lemma round2_share (q : Q) : (0 <= q <= 100)%Q -> (0 <= Js.round2 q <= 100)%Q.
Proof.
  intros [Hlow Hhigh]. split.
  - change 0%Q with (Js.round2 0). by apply round2_monotone.
  - change 100%Q with (Js.round2 100). by apply round2_monotone.
Qed.

Lemma filter_length_le {A : Type} (p : A -> bool) (arr : list A) :
  (length (List.filter p arr) <= length arr)%nat.
Proof.
  induction arr as [|x rest IH]; simpl; [lia|]. destruct (p x); simpl; lia.
Qed.

Lemma sum_with_le {A : Type} (f g : A -> Z) (arr : list A) :
  Forall (fun x => f x <= g x) arr -> sum_with f arr <= sum_with g arr.
Proof.
  induction 1 as [|x rest Hx _ IH]; [reflexivity|]. rewrite !sum_with_cons. lia.
Qed.

(** X10.  The URL growth of the dashboard summary is a percentage: it
    lies between [0] and [100] for every portfolio. *)
Theorem dashboard_urlGrowth_is_a_share (now : Z) (urls : list Url) :
  (0 <= urlGrowth (stats_summary now urls) <= 100)%Q.
Proof.
  cbn [stats_summary urlGrowth]. apply round2_share.
  destruct (Z.eqb_spec (Z.of_nat (length urls)) 0) as [|Hne]; [done|].
  apply share_bounds; [|lia].
  pose proof (filter_length_le (fun url => month_before now <=? createdAt url) urls).
  lia.
Qed.

(** X11.  On a portfolio whose documents have their counters in order
    (as [recordClick] keeps them) the click growth of the dashboard
    summary lies between [0] and [100] as well. *)
Theorem dashboard_clickGrowth_is_a_share (now : Z) (urls : list Url) :
  Forall counters_ok urls ->
  (0 <= clickGrowth (stats_summary now urls) <= 100)%Q.
Proof.
  intros Hok. cbn [stats_summary clickGrowth]. apply round2_share.
  destruct (Z.eqb_spec (sum_with clicks urls) 0) as [|Hne]; [done|].
  set (recent := fun url : Url =>
         Z.of_nat (length (List.filter (fun a => month_before now <=? timestamp a)
                             (analytics url)))).
  assert (Hlow : 0 <= sum_with recent urls).
  { apply sum_with_nonneg, Forall_forall. intros url _. unfold recent. lia. }
  assert (Hhigh : sum_with recent urls <= sum_with clicks urls).
  { apply sum_with_le. eapply Forall_impl; [exact Hok|].
    intros url [_ Hlog]. unfold recent.
    pose proof (filter_length_le (fun a => month_before now <=? timestamp a)
                  (analytics url)).
    lia. }
  apply share_bounds; lia.
Qed.

(** X12.  The URL growth of the summary over the small model is never
    negative. *)
Theorem small_urlsGrowth_nonnegative (now : Z) (urls : list SmallModel.Url) :
  (0 <= SmallModel.urlsGrowth (SmallModel.stats_summary month_before days_before now urls))%Q.
Proof.
  cbn [SmallModel.stats_summary SmallModel.urlsGrowth].
  change 0%Q with (Js.round2 0). apply round2_monotone.
  unfold SmallModel.urls_growth, SmallModel.count_created_until.
  set (older := List.filter _ urls).
  pose proof (filter_length_le (fun u => SmallModel.createdAt u <=? month_before now) urls)
    as Hle. fold older in Hle.
  destruct (Z.eqb_spec (Z.of_nat (length older)) 0) as [|Hne]; [discriminate|].
  rewrite Qred_correct. apply Qmult_le_0_compat; [|discriminate].
  apply Qle_shift_div_l; [unfold Qlt; simpl; lia|].
  rewrite Qmult_0_l. unfold Qle. simpl. lia.
Qed.

(** X13.  [topUrls] lists the five links with the most clicks, or all
    links when there are fewer: its entries are taken from the links of
    the portfolio, in descending order of clicks, and a link that is
    not listed has no more clicks than any listed one. *)
Theorem topUrls_are_the_most_clicked (now : Z) (urls : list Url) :
  let top := topUrls (stats_summary now urls) in
  let entry := fun url =>
    {| top_shortCode := shortCode url; top_originalUrl := originalUrl url;
       top_clicks := clicks url; top_uniqueClicks := uniqueClicks url |} in
  length top = (5 `min` length urls)%nat /\
  StronglySorted (fun a b => top_clicks b <= top_clicks a) top /\
  (forall e, e ∈ top -> exists url, url ∈ urls /\ e = entry url) /\
  (forall url, url ∈ urls ->
               entry url ∈ top \/ forall e, e ∈ top -> clicks url <= top_clicks e).
Proof.
  intros top entry. subst top. cbn [stats_summary topUrls]. fold entry.
  pose proof (sort_desc_Permutation clicks urls) as Hperm.
  pose proof (sort_desc_sorted clicks urls) as Hsorted.
  split_and!.
  - rewrite length_fmap, length_take, Hperm. reflexivity.
  - apply (StronglySorted_fmap _ (fun a b => clicks b <= clicks a)); [done|].
    by apply take_sorted.
  - intros e (url & -> & Hurl)%list_elem_of_fmap. exists url. split; [|reflexivity].
    rewrite <- Hperm. apply elem_of_take in Hurl as (i & Hi & _).
    by eapply list_elem_of_lookup_2.
  - intros url Hurl. rewrite <- Hperm in Hurl.
    rewrite <- (take_drop 5 (sort_desc clicks urls)) in Hurl, Hsorted.
    apply elem_of_app in Hurl as [Htake|Hdrop].
    + left. by apply list_elem_of_fmap_2.
    + right. intros e (other & -> & Hother)%list_elem_of_fmap. simpl.
      exact (StronglySorted_app_1_elem_of _ _ _ other url Hsorted Hother Hdrop).
Qed.

Lemma count_keys (f : AnalyticsEntry -> string) (entries : list AnalyticsEntry)
    (stats : gmap string Z) (k : string) :
  fold_left (fun stats a => count_key (f a) stats) entries stats !! k =
  match List.filter (fun a => String.eqb (f a) k) entries with
  | [] => stats !! k
  | found => Some (default 0 (stats !! k) + Z.of_nat (length found))
  end.
Proof.
  revert stats. induction entries as [|a entries IH]; intros stats; [reflexivity|].
  cbn [fold_left List.filter]. rewrite IH. unfold count_key.
  destruct (String.eqb_spec (f a) k) as [->|Hne].
  - rewrite lookup_insert_eq. cbn [default from_option id].
    destruct (List.filter _ entries) as [|b found]; f_equal; simpl length; lia.
  - by rewrite lookup_insert_ne.
Qed.

(** X14.  In the dashboard summary the tally of a device (of a browser)
    is the number of logged events of the portfolio with that device
    (browser), a device without events has no tally, and the country
    tallies count the events with a country and never hold the empty
    name. *)
Theorem dashboard_tallies_count_events (now : Z) (urls : list Url) (k : string) :
  let summary := stats_summary now urls in
  let events := all_entries urls in
  let count := fun f => length (List.filter (fun a => String.eqb (f a) k) events) in
  default 0 (deviceStats summary !! k) = Z.of_nat (count a_device) /\
  (deviceStats summary !! k = None <-> count a_device = 0%nat) /\
  default 0 (browserStats summary !! k) = Z.of_nat (count a_browser) /\
  countryStats summary !! "" = None /\
  (k <> "" -> default 0 (countryStats summary !! k) = Z.of_nat (count a_country)).
Proof.
  intros summary events count. subst summary count.
  cbn [stats_summary deviceStats browserStats countryStats]. fold events.
  rewrite !count_keys, !lookup_empty.
  assert (Hcountry : forall name,
    fold_left
      (fun stats a =>
         if String.eqb (a_country a) "" then stats else count_key (a_country a) stats)
      events ∅ !! name =
    if String.eqb name "" then None
    else match List.filter (fun a => String.eqb (a_country a) name) events with
         | [] => None
         | found => Some (Z.of_nat (length found))
         end).
  { intros name.
    assert (Hgen : forall stats : gmap string Z,
      fold_left
        (fun stats a =>
           if String.eqb (a_country a) "" then stats else count_key (a_country a) stats)
        events stats !! name =
      if String.eqb name "" then stats !! name
      else match List.filter (fun a => String.eqb (a_country a) name) events with
           | [] => stats !! name
           | found => Some (default 0 (stats !! name) + Z.of_nat (length found))
           end).
    { induction events as [|a rest IH]; intros stats.
      - simpl. by destruct (String.eqb name "").
      - cbn [fold_left List.filter]. rewrite IH.
        destruct (String.eqb_spec name "") as [Hname|Hname].
        + destruct (String.eqb_spec (a_country a) ""); [reflexivity|].
          unfold count_key. rewrite lookup_insert_ne; [reflexivity | congruence].
        + destruct (String.eqb_spec (a_country a) "") as [Hempty|Hfull].
          * destruct (String.eqb_spec (a_country a) name); [congruence | reflexivity].
          * unfold count_key.
            destruct (String.eqb_spec (a_country a) name) as [->|Hne].
            -- rewrite lookup_insert_eq. cbn [default from_option id].
               destruct (List.filter _ rest); f_equal; simpl length; lia.
            -- by rewrite lookup_insert_ne. }
    rewrite Hgen, lookup_empty.
    destruct (String.eqb name ""); [reflexivity|].
    destruct (List.filter _ events); first [reflexivity | f_equal; simpl; lia]. }
  split_and!.
  - destruct (List.filter _ events); simpl; lia.
  - destruct (List.filter _ events); simpl; split; (done || lia).
  - destruct (List.filter _ events); simpl; lia.
  - by rewrite Hcountry.
  - intros Hk. rewrite Hcountry. destruct (String.eqb_spec k ""); [done|].
    destruct (List.filter _ events); simpl; lia.
Qed.

(** *** The routes over the small model *)

Lemma sum_with_insert {A : Type} (f : A -> Z) (i : nat) (arr : list A) (x y : A) :
  arr !! i = Some x ->
  sum_with f (<[i := y]> arr) = sum_with f arr + (f y - f x).
Proof.
  revert i. induction arr as [|z rest IH]; intros [|i] Hi; try discriminate.
  - injection Hi as ->. change (<[0%nat := y]> (x :: rest)) with (y :: rest).
    rewrite !sum_with_cons. lia.
  - change (<[S i := y]> (z :: rest)) with (z :: <[i := y]> rest).
    rewrite !sum_with_cons, (IH i Hi). lia.
Qed.

Lemma findIndex_first {A : Type} (p : A -> bool) (arr : list A) (x : A) :
  Forall (fun y => p y = false) arr -> p x = true ->
  findIndex p (arr ++ [x]) = Some (length arr).
Proof.
  intros Hall Hx. induction Hall as [|y rest Hy _ IH]; simpl.
  - by rewrite Hx.
  - by rewrite Hy, IH.
Qed.

Lemma existsb_false {A : Type} (p : A -> bool) (arr : list A) :
  existsb p arr = false <-> Forall (fun y => p y = false) arr.
Proof.
  induction arr as [|y rest IH]; simpl.
  - split; [constructor | reflexivity].
  - rewrite orb_false_iff, IH. split.
    + intros [? ?]. by constructor.
    + intros Hall. inversion Hall. by split.
Qed.

(** X15.  A click that the small click route accepts adds one to the
    clicks of the portfolio and leaves the number of links alone, and
    when the clock is not behind the start of the 30-day window the
    summary taken at the same instant counts at least one active link;
    a click that is refused (404, 410) changes nothing. *)
Theorem post_click_shows_in_summary
    (now : Z) (code : string) (referrer user_agent : option string)
    (db : list SmallModel.Url) :
  let answer := SmallModel.post_click now code referrer user_agent db in
  let before := SmallModel.stats_summary month_before days_before now db in
  let after := SmallModel.stats_summary month_before days_before now answer.2 in
  match answer.1 with
  | SmallModel.ClickOk target =>
      (exists url, url ∈ db /\ SmallModel.shortUrl url = code /\
                   SmallModel.originalUrl url = target /\
                   SmallModel.expired_at now url = false) /\
      SmallModel.totalUrls after = SmallModel.totalUrls before /\
      SmallModel.totalClicks after = SmallModel.totalClicks before + 1 /\
      (days_before now 30 <= now -> 1 <= SmallModel.activeUrls after)
  | _ => answer.2 = db
  end.
Proof.
  intros answer before after. subst answer before after.
  unfold SmallModel.post_click.
  destruct (findIndex _ db) as [i|] eqn:Hfind; [|reflexivity].
  destruct (findIndex_Some _ _ _ Hfind) as (url & Hurl & Hcode).
  apply String.eqb_eq in Hcode. rewrite Hurl.
  destruct (SmallModel.expired_at now url) eqn:Hexp; [reflexivity|].
  cbn [fst snd SmallModel.stats_summary SmallModel.totalUrls SmallModel.totalClicks
       SmallModel.activeUrls].
  split_and!.
  - exists url. split_and!; try done. by eapply list_elem_of_lookup_2.
  - by rewrite length_insert.
  - rewrite (sum_with_insert _ _ _ url _ Hurl). simpl. lia.
  - intros Hwindow.
    assert (Hin : SmallModel.clicked now referrer user_agent url
                  ∈ <[i := SmallModel.clicked now referrer user_agent url]> db).
    { eapply list_elem_of_lookup_2. apply list_lookup_insert_eq.
      by eapply lookup_lt_Some. }
    apply list_elem_of_In in Hin.
    assert (Hkept : In (SmallModel.clicked now referrer user_agent url)
              (List.filter
                 (fun u => match SmallModel.lastClickedAt u with
                           | Some t => days_before now 30 <=? t
                           | None => false
                           end)
                 (<[i := SmallModel.clicked now referrer user_agent url]> db))).
    { apply List.filter_In. split; [exact Hin|]. simpl. lia. }
    destruct (List.filter _ _); [destruct Hkept | simpl; lia].
Qed.

Lemma small_alias_taken
    (now : Z) (fresh : string) (body : SmallModel.CreateBody)
    (db : list SmallModel.Url) (taken : SmallModel.Url) :
  taken ∈ db ->
  SmallModel.body_customAlias body = Some (SmallModel.shortUrl taken) ->
  SmallModel.shortUrl taken <> "" ->
  exists error,
    SmallModel.post_create URL_valid Date_cast now fresh body db
    = (SmallModel.BadRequest error, db).
Proof.
  intros Hin Halias Hfull. unfold SmallModel.post_create.
  destruct (SmallModel.body_originalUrl body) as [target|]; [|by eexists].
  destruct (URL_valid target); simpl; [|by eexists].
  rewrite Halias. simpl.
  destruct (String.eqb_spec (SmallModel.shortUrl taken) "") as [|_]; [done|]. simpl.
  assert (Hex : existsb (fun u => String.eqb (SmallModel.shortUrl u)
                                    (SmallModel.shortUrl taken)) db = true).
  { apply existsb_exists. exists taken. split; [by apply list_elem_of_In|].
    apply String.eqb_refl. }
  rewrite Hex. by eexists.
Qed.

(** X16.  The small create route refuses a custom alias that a document
    of the collection already has as its short URL: the answer is 400
    and the collection is unchanged. *)
Theorem post_create_refuses_taken_alias
    (now : Z) (fresh : string) (body : SmallModel.CreateBody)
    (db : list SmallModel.Url) (taken : SmallModel.Url) :
  taken ∈ db ->
  SmallModel.body_customAlias body = Some (SmallModel.shortUrl taken) ->
  SmallModel.shortUrl taken <> "" ->
  exists error,
    SmallModel.post_create URL_valid Date_cast now fresh body db
    = (SmallModel.BadRequest error, db).
Proof.
  intros Hin Halias Hfull.
  exact (small_alias_taken now fresh body db taken Hin Halias Hfull).
Qed.

(** X17.  The small create route keeps the short URLs of the collection
    distinct, and it changes the collection only by appending the
    document it answers with. *)
Theorem post_create_keeps_shortUrls_distinct
    (now : Z) (fresh : string) (body : SmallModel.CreateBody)
    (db : list SmallModel.Url) :
  NoDup (SmallModel.shortUrl <$> db) ->
  let answer := SmallModel.post_create URL_valid Date_cast now fresh body db in
  NoDup (SmallModel.shortUrl <$> answer.2) /\
  match answer.1 with
  | SmallModel.Created url => answer.2 = db ++ [url]
  | _ => answer.2 = db
  end.
Proof.
  intros Hnd answer. subst answer. unfold SmallModel.post_create.
  destruct (SmallModel.body_originalUrl body) as [target|]; [|done].
  destruct (URL_valid target); simpl; [|done].
  destruct (Js.truthy (SmallModel.body_customAlias body) && _); [done|].
  destruct (Js.truthy (SmallModel.body_expiresAt body));
    [destruct (Date_cast _); [|done]|];
    cbn [mjoin option_join];
    (match goal with
     | |- context [SmallModel.insertable ?url db] =>
         destruct (SmallModel.insertable url db) eqn:Hins; [|done];
         split; [|reflexivity]; cbn [snd];
         unfold SmallModel.insertable in Hins;
         apply andb_true_iff in Hins as [_ Hfree];
         apply negb_true_iff, existsb_false in Hfree;
         rewrite fmap_app; apply NoDup_app;
         split_and!; [exact Hnd | | apply NoDup_singleton];
         intros name (other & -> & Hother)%list_elem_of_fmap Hsame;
         apply list_elem_of_singleton in Hsame;
         rewrite Forall_forall in Hfree; specialize (Hfree other Hother);
         apply String.eqb_neq in Hfree; congruence
     end).
Qed.

(** X18.  A link that the small create route answers with can be
    clicked: as long as it has not expired, the click route resolves
    its short URL to the original URL of the request; and a further
    request for the same custom alias is refused with 400. *)
Theorem post_create_then_click
    (now later : Z) (fresh : string) (body : SmallModel.CreateBody)
    (db : list SmallModel.Url) (url : SmallModel.Url)
    (referrer user_agent : option string) :
  let answer := SmallModel.post_create URL_valid Date_cast now fresh body db in
  answer.1 = SmallModel.Created url ->
  SmallModel.body_originalUrl body = Some (SmallModel.originalUrl url) /\
  SmallModel.shortUrl url = Js.or_else (SmallModel.body_customAlias body) fresh /\
  (SmallModel.expired_at later url = false ->
   (SmallModel.post_click later (SmallModel.shortUrl url) referrer user_agent answer.2).1
   = SmallModel.ClickOk (SmallModel.originalUrl url)) /\
  (forall fresh' body',
      SmallModel.body_customAlias body' = Some (SmallModel.shortUrl url) ->
      exists error,
        SmallModel.post_create URL_valid Date_cast later fresh' body' answer.2
        = (SmallModel.BadRequest error, answer.2)).
Proof.
  intros answer Hcreated.
  assert (Hshape : exists target expires,
            SmallModel.body_originalUrl body = Some target /\
            url = SmallModel.built now fresh target body expires /\
            SmallModel.insertable url db = true /\ answer.2 = db ++ [url]).
  { subst answer. unfold SmallModel.post_create in *.
    destruct (SmallModel.body_originalUrl body) as [target|]; [|discriminate].
    destruct (URL_valid target); simpl in *; [|discriminate].
    destruct (Js.truthy (SmallModel.body_customAlias body) && _); [discriminate|].
    destruct (Js.truthy (SmallModel.body_expiresAt body));
      [destruct (Date_cast _); [|discriminate]|];
      cbn [mjoin option_join] in *;
      (match goal with
       | H : context [SmallModel.insertable ?built db] |- _ =>
           destruct (SmallModel.insertable built db) eqn:Hins; [|discriminate];
           injection H as <-; exists target; eexists; split_and!; done
       end). }
  destruct Hshape as (target & expires & Htarget & -> & Hins & Hdb).
  unfold SmallModel.insertable in Hins.
  apply andb_true_iff in Hins as [Hreq Hfree].
  apply andb_true_iff in Hreq as [_ Hcode].
  apply negb_true_iff, existsb_false in Hfree.
  apply negb_true_iff, String.eqb_neq in Hcode.
  set (url := SmallModel.built now fresh target body expires) in *.
  split_and!; [exact Htarget | reflexivity | |].
  - intros Hlive. rewrite Hdb. unfold SmallModel.post_click.
    rewrite (findIndex_first _ db url); [|exact Hfree | apply String.eqb_refl].
    rewrite lookup_app_r, Nat.sub_diag by lia. simpl. by rewrite Hlive.
  - intros fresh' body' Halias.
    apply (small_alias_taken later fresh' body' answer.2 url);
      [rewrite Hdb; apply elem_of_app; right; by apply list_elem_of_singleton
      | exact Halias | exact Hcode].
Qed.

Lemma sort_asc_sorted {A : Type} (key : A -> Z) (arr : list A) :
  StronglySorted (fun a b => key a <= key b) (sort_asc key arr).
Proof.
  unfold sort_asc.
  pose proof (sort_desc_sorted (fun x => - key x) arr) as Hsorted.
  induction Hsorted as [|x rest _ IH Hx]; constructor; [exact IH|].
  eapply Forall_impl; [exact Hx|]. simpl. intros b ?. lia.
Qed.

(** X19.  The analytics route of the small model answers with the
    visits of the last 30 days, each of them once, in ascending order
    of their timestamps. *)
Theorem get_analytics_sorted_window (now : Z) (url : SmallModel.Url) :
  let answer := SmallModel.get_analytics days_before now url in
  StronglySorted
    (fun a b => SmallModel.visit_timestamp a <= SmallModel.visit_timestamp b) answer /\
  answer ≡ₚ List.filter
              (fun item => days_before now 30 <=? SmallModel.visit_timestamp item)
              (SmallModel.analytics url) /\
  (forall item, item ∈ answer <->
                item ∈ SmallModel.analytics url /\
                days_before now 30 <= SmallModel.visit_timestamp item).
Proof.
  intros answer. subst answer. unfold SmallModel.get_analytics.
  split_and!.
  - apply sort_asc_sorted.
  - apply sort_desc_Permutation.
  - intros item. unfold sort_asc. rewrite sort_desc_Permutation.
    rewrite list_elem_of_In, List.filter_In, <- list_elem_of_In, Z.leb_le.
    reflexivity.
Qed.

(** *** [POST /] of [backend/routes/urls.js] *)

(** What a created document looks like. *)
Lemma post_url_created (now : Z) (fresh : string) (body : CreateBody) (db : list Url)
    (url : Url) :
  (post_url now fresh body db).1 = UrlCreated url ->
  exists target expires s,
    body_originalUrl body = Some target /\
    url = pre_save now
            (new_Url now (trim target) (Js.or_else (body_customAlias body) fresh)
               (trim <$> body_customAlias body) expires s) /\
    match expires with Some t => now < t | None => True end /\
    (Js.truthy (body_customAlias body) = true ->
     Forall (fun u => resolves (default "" (body_customAlias body)) u = false) db) /\
    Forall (fun u => String.eqb (shortCode u) (shortCode url) = false) db /\
    (post_url now fresh body db).2 = db ++ [url].
Proof.
  unfold post_url.
  destruct (body_originalUrl body) as [target|]; [|discriminate].
  destruct (URL_valid target); simpl; [|discriminate].
  destruct (Js.truthy (body_customAlias body)) eqn:Halias; simpl.
  - destruct (existsb _ db) eqn:Hex; [discriminate|]. apply existsb_false in Hex.
    destruct (Js.truthy (body_expiresAt body));
      [destruct (Date_cast _) as [t|]; [|discriminate]|];
      (destruct (settings_of (body_settings body)) as [s|]; [|discriminate]);
      cbn [mjoin option_join];
      (match goal with
       | |- context [valid_new now ?doc && ?free] =>
           destruct (valid_new now doc && free) eqn:Hok; [|discriminate];
           apply andb_true_iff in Hok as [Hvalid Hfree];
           apply negb_true_iff, existsb_false in Hfree;
           unfold valid_new in Hvalid;
           apply andb_true_iff in Hvalid as [_ Hfuture];
           intros [= <-]; exists target; eexists; exists s;
           split_and!; try done; simpl in Hfuture; simpl; try lia
       end).
  - destruct (Js.truthy (body_expiresAt body));
      [destruct (Date_cast _) as [t|]; [|discriminate]|];
      (destruct (settings_of (body_settings body)) as [s|]; [|discriminate]);
      cbn [mjoin option_join];
      (match goal with
       | |- context [valid_new now ?doc && ?free] =>
           destruct (valid_new now doc && free) eqn:Hok; [|discriminate];
           apply andb_true_iff in Hok as [Hvalid Hfree];
           apply negb_true_iff, existsb_false in Hfree;
           unfold valid_new in Hvalid;
           apply andb_true_iff in Hvalid as [_ Hfuture];
           intros [= <-]; exists target; eexists; exists s;
           split_and!; try done; simpl in Hfuture; simpl; try lia
       end).
Qed.

Lemma post_url_not_created (now : Z) (fresh : string) (body : CreateBody)
    (db : list Url) :
  (forall url, (post_url now fresh body db).1 <> UrlCreated url) ->
  (post_url now fresh body db).2 = db.
Proof.
  unfold post_url.
  destruct (body_originalUrl body) as [target|]; [|done].
  destruct (URL_valid target); simpl; [|done].
  destruct (Js.truthy (body_customAlias body) && _); [done|].
  destruct (Js.truthy (body_expiresAt body));
    [destruct (Date_cast _) as [t|]; [|done]|];
    (destruct (settings_of (body_settings body)) as [s|]; [|done]);
    cbn [mjoin option_join];
    (match goal with
     | |- context [valid_new now ?doc && ?free] =>
         destruct (valid_new now doc && free); [|done];
         intros Hnot; exfalso; by eapply Hnot
     end).
Qed.

Lemma alias_taken
    (now : Z) (fresh alias : string) (body : CreateBody) (db : list Url) (taken : Url) :
  body_customAlias body = Some alias -> alias <> "" ->
  taken ∈ db -> resolves alias taken = true ->
  exists error, post_url now fresh body db = (UrlRejected error, db).
Proof.
  intros Halias Hfull Hin Hres. unfold post_url.
  destruct (body_originalUrl body) as [target|]; [|by eexists].
  destruct (URL_valid target); simpl; [|by eexists].
  rewrite Halias. simpl.
  destruct (String.eqb_spec alias "") as [|_]; [done|]. simpl.
  assert (Hex : existsb (resolves alias) db = true).
  { apply existsb_exists. exists taken. split; [by apply list_elem_of_In | exact Hres]. }
  rewrite Hex. by eexists.
Qed.

(** X20.  The create route refuses a custom alias that resolves to a
    document of the collection, be it by its short code or by its
    alias: the answer is 400 and the collection is unchanged. *)
Theorem post_url_refuses_taken_alias
    (now : Z) (fresh alias : string) (body : CreateBody) (db : list Url) (taken : Url) :
  body_customAlias body = Some alias -> alias <> "" ->
  taken ∈ db -> resolves alias taken = true ->
  exists error, post_url now fresh body db = (UrlRejected error, db).
Proof.
  intros Halias Hfull Hin Hres.
  exact (alias_taken now fresh alias body db taken Halias Hfull Hin Hres).
Qed.

(** X21.  The create route keeps the short codes of the collection
    distinct; it changes the collection only by appending the document
    it answers with, which is active, not expired, without clicks, and
    has an expiry time later than the clock if it has one. *)
Theorem post_url_keeps_shortCodes_distinct
    (now : Z) (fresh : string) (body : CreateBody) (db : list Url) :
  NoDup (shortCode <$> db) ->
  let answer := post_url now fresh body db in
  NoDup (shortCode <$> answer.2) /\
  match answer.1 with
  | UrlCreated url =>
      answer.2 = db ++ [url] /\ status url = active /\ isExpired url = false /\
      clicks url = 0 /\ analytics url = [] /\
      match expiresAt url with
      | Some t => now < t
      | None => True
      end
  | _ => answer.2 = db
  end.
Proof.
  intros Hnd answer. subst answer.
  destruct (post_url now fresh body db).1 as [url| |] eqn:Hanswer.
  - destruct (post_url_created _ _ _ _ _ Hanswer)
      as (target & expires & s & _ & Hurl & Hfuture & _ & Hfree & Hdb).
    rewrite Hdb. split.
    + rewrite fmap_app. apply NoDup_app.
      split_and!; [exact Hnd | | apply NoDup_singleton].
      intros name (other & -> & Hother)%list_elem_of_fmap Hsame.
      apply list_elem_of_singleton in Hsame.
      rewrite Forall_forall in Hfree. specialize (Hfree other Hother).
      apply String.eqb_neq in Hfree. congruence.
    + subst url. unfold pre_save. simpl.
      destruct expires as [t|]; simpl.
      * destruct (Z.ltb_spec t now); [lia|]. split_and!; try reflexivity. exact Hfuture.
      * split_and!; reflexivity.
  - rewrite post_url_not_created; [by split|]. intros url. congruence.
  - rewrite post_url_not_created; [by split|]. intros url. congruence.
Qed.

(** X22.  A link created under a custom alias is what the redirect
    route finds under that alias: the answer of [GET /alias] is the
    answer of the route for the created document, whose target is the
    trimmed URL of the request; and a further request for the same
    alias is refused with 400. *)
Theorem post_url_then_get_shortCode
    (now later : Z) (fresh alias : string) (body : CreateBody) (db : list Url)
    (url : Url) (req : Request) :
  body_customAlias body = Some alias -> alias <> "" ->
  let answer := post_url now fresh body db in
  answer.1 = UrlCreated url ->
  trim <$> body_originalUrl body = Some (originalUrl url) /\
  shortCode url = alias /\
  (get_shortCode later req alias answer.2).1 = (serve later req url).1 /\
  (forall fresh' body',
      body_customAlias body' = Some alias ->
      exists error, post_url later fresh' body' answer.2 = (UrlRejected error, answer.2)).
Proof.
  intros Halias Hfull answer Hcreated. subst answer.
  destruct (post_url_created _ _ _ _ _ Hcreated)
    as (target & expires & s & Htarget & Hurl & _ & Hnone & _ & Hdb).
  assert (Htruthy : Js.truthy (body_customAlias body) = true).
  { rewrite Halias. simpl. by destruct (String.eqb_spec alias ""). }
  specialize (Hnone Htruthy). rewrite Halias in Hnone. simpl in Hnone.
  assert (Hcode : shortCode url = alias).
  { subst url. simpl. rewrite Halias. simpl. by destruct (String.eqb_spec alias ""). }
  assert (Hres : resolves alias url = true).
  { unfold resolves. rewrite Hcode, String.eqb_refl. reflexivity. }
  split_and!.
  - rewrite Htarget. subst url. reflexivity.
  - exact Hcode.
  - rewrite get_shortCode_response, Hdb.
    rewrite (findIndex_first _ db url Hnone Hres).
    rewrite lookup_app_r, Nat.sub_diag by lia. reflexivity.
  - intros fresh' body' Halias'.
    apply (alias_taken later fresh' alias body' _ url);
      [exact Halias' | exact Hfull | | exact Hres].
    rewrite Hdb. apply elem_of_app. right. by apply list_elem_of_singleton.
Qed.

End Service.

(** ** Checks on concrete inputs *)

Example toFixed2_two : Js.toFixed2 (4 # 2) = "2.00".
Proof. vm_compute. reflexivity. Qed.

Example toFixed2_third : Js.toFixed2 (1 # 3) = "0.33".
Proof. vm_compute. reflexivity. Qed.

Example toFixed2_eighth : Js.toFixed2 (1 # 8) = "0.13".
Proof. vm_compute. reflexivity. Qed.

Example toFixed2_negative : Js.toFixed2 (- (3 # 2)) = "-1.50".
Proof. vm_compute. reflexivity. Qed.

Example round2_third : Js.round2 (100 # 3) = (3333 # 100)%Q.
Proof. vm_compute. reflexivity. Qed.

Example zero_by_zero : Js.div 0 0 = Js.NaN.
Proof. reflexivity. Qed.

Example slice_last_two : slice_last 2 [1; 2; 3] = [2; 3].
Proof. reflexivity. Qed.

Example sort_desc_is_stable :
  sort_desc snd [("a", 1); ("b", 2); ("c", 1); ("d", 2)]
  = [("b", 2); ("d", 2); ("a", 1); ("c", 1)].
Proof. reflexivity. Qed.

Example language_of_public_request : language_of public_request = "en-US".
Proof. reflexivity. Qed.

(** Three clicks from one address and two from another on one day, on a
    fresh link: five clicks, two unique ones; the entry of the day
    misses the click that opened it, and the visitor that made it. *)
Example three_and_two_clicks :
  let u :=
    record_all sample_geoip utc_midnight sample_qr sample_base
      [ (mid_august, click_from mid_august "10.0.0.1");
        (mid_august + 1, click_from mid_august "10.0.0.1");
        (mid_august + 2, click_from mid_august "10.0.0.2");
        (mid_august + 3, click_from mid_august "10.0.0.1");
        (mid_august + 4, click_from mid_august "10.0.0.2") ]
      sample_link in
  clicks u = 5 /\ uniqueClicks u = 2 /\
  (fun stat => (day_clicks stat, day_uniqueVisitors stat)) <$> dailyStats u = [(4, 1)].
Proof. vm_compute. split_and!; reflexivity. Qed.

(** C1.  The summary does not return [uniqueClicks / clicks]: on a link
    with four clicks of two visitors its [conversionRate] is the string
    of [clicks / uniqueClicks], ["2.00"], where the quotient of the
    unique clicks by the clicks prints as ["0.50"]; the guard is on
    [uniqueClicks]. *)
Theorem conversionRate_is_clicks_per_visitor :
  let u :=
    record_all sample_geoip utc_midnight sample_qr sample_base two_visitors_twice
      sample_link in
  let summary := getAnalyticsSummary utc_days_before (mid_august + 4) 30 u in
  clicks u = 4 /\ uniqueClicks u = 2 /\
  conversionRate summary = Js.VString "2.00" /\
  Js.toFixed2 (inject_Z (uniqueClicks u) / inject_Z (clicks u)) = "0.50" /\
  conversionRate (getAnalyticsSummary utc_days_before mid_august 30 sample_link)
    = Js.VNumber (Js.Num 0).
Proof. vm_compute. split_and!; reflexivity. Qed.

Lemma recordClick_counts_witness :
  let u :=
    record_all sample_geoip utc_midnight sample_qr sample_base two_visitors_twice
      sample_link in
  clicks u = 4 /\ uniqueClicks u = 2.
Proof.
  destruct (recordClick_counts_calls_and_addresses sample_geoip utc_midnight sample_qr
              sample_base mid_august "https://example.org/" "abc123" None None
              default_settings two_visitors_twice) as (Hclicks & Hunique & _).
  split; [exact Hclicks | exact Hunique].
Defined.

Lemma checkExpiration_expires_once_witness :
  let first := checkExpiration sample_qr sample_base (mid_august + 1000) expiring_link in
  let second := checkExpiration sample_qr sample_base (mid_august + 2000) first.2 in
  expiresAt expiring_link = Some mid_august /\
  first.1 = true /\ isExpired first.2 = true /\
  (expiry_consistent expiring_link -> status first.2 = expired) /\
  second.1 = true /\ second.2 = first.2.
Proof.
  split; [reflexivity|].
  apply (checkExpiration_expires_once sample_qr sample_base (mid_august + 1000)
           (mid_august + 2000) mid_august expiring_link).
  - reflexivity.
  - reflexivity.
  - discriminate.
Defined.

(** One second after its expiry the link of the witness moves from
    [active] to [expired]. *)
Example expiring_link_expires :
  status expiring_link = active /\
  status (checkExpiration sample_qr sample_base (mid_august + 1000) expiring_link).2
    = expired.
Proof. split; reflexivity. Qed.

Lemma checkExpiration_without_expiresAt_witness :
  expiresAt sample_link = None /\
  checkExpiration sample_qr sample_base mid_august sample_link = (false, sample_link).
Proof.
  split; [reflexivity|].
  apply (checkExpiration_without_expiresAt sample_geoip utc_midnight sample_qr sample_base
           sample_parse sample_parseInt mid_august sample_link).
  reflexivity.
Defined.

Lemma gateway_redirects_unless_past_expiry_witness :
  sample_parse (header_user_agent local_request) = Some unknown_agent /\
  ((serve sample_geoip utc_midnight sample_qr sample_base sample_parse sample_parseInt
      mid_august local_request blocked_link).1 = Redirect (originalUrl blocked_link) <->
   unexpired mid_august blocked_link /\ redirectType (settings blocked_link) <> delayed).
Proof.
  split; [reflexivity|].
  apply (gateway_redirects_unless_past_expiry sample_geoip utc_midnight sample_qr
           sample_base sample_parse sample_parseInt mid_august local_request blocked_link
           unknown_agent).
  reflexivity.
Defined.


(** The event of the witness is logged with the fields of the lookup. *)
Example public_request_is_located :
  let d := analyticsData sample_parseInt mid_august public_request unknown_agent in
  country <$> last (analytics (recordClick sample_geoip utc_midnight sample_qr sample_base
                                 mid_august d sample_link))
    = Some (Some "US").
Proof. vm_compute. reflexivity. Qed.

(** On a link that does not track location the same event is logged
    without geographic fields. *)
Example untracked_link_is_not_located :
  let d := analyticsData sample_parseInt mid_august public_request unknown_agent in
  geo_fields <$> last (analytics (recordClick sample_geoip utc_midnight sample_qr
                                    sample_base mid_august d untracked_link))
    = Some no_geo_fields.
Proof. vm_compute. reflexivity. Qed.

(** A blocked link is redirected, and so is a link at the very instant
    of its expiry: the rule of the specification does not describe the
    route. *)
Lemma gateway_ignores_status :
  let route :=
    serve sample_geoip utc_midnight sample_qr sample_base sample_parse sample_parseInt
      mid_august local_request in
  status blocked_link = blocked /\
  (route blocked_link).1 = Redirect (originalUrl blocked_link) /\
  ~ ((route blocked_link).1 = Redirect (originalUrl blocked_link) <->
     redirectable_as_specified mid_august blocked_link) /\
  expiresAt expiring_link = Some mid_august /\
  (route expiring_link).1 = Redirect (originalUrl expiring_link) /\
  ~ ((route expiring_link).1 = Redirect (originalUrl expiring_link) <->
     redirectable_as_specified mid_august expiring_link).
Proof.
  simpl. split_and!; try reflexivity.
  - intros [Hto _]. destruct (Hto eq_refl) as (_ & Hblocked & _). by apply Hblocked.
  - intros [Hto _]. destruct (Hto eq_refl) as (_ & _ & Hlater). simpl in Hlater. lia.
Qed.

(** With a baseline of one link and two links now the dashboard summary
    reports a URL growth of 50 and not of 100; with an old link that was
    never clicked the small summary reports a click growth of 500 and
    not of 100. *)
Lemma growth_is_not_as_specified :
  let dashboard := stats_summary august_month_before mid_august portfolio in
  let small :=
    SmallModel.stats_summary august_month_before utc_days_before mid_august late_bloomer in
  totalUrls dashboard = 2 /\
  urlGrowth dashboard = 50%Q /\
  ~ (urlGrowth dashboard == growth_as_specified 2 1)%Q /\
  SmallModel.totalClicks small = 5 /\
  SmallModel.clicksGrowth small = 500%Q /\
  ~ (SmallModel.clicksGrowth small == growth_as_specified 5 0)%Q.
Proof. vm_compute. split_and!; (reflexivity || discriminate). Qed.

(** With the same baseline the small summary reports the growth of the
    specification. *)
Example small_summary_doubling :
  SmallModel.urlsGrowth
    (SmallModel.stats_summary august_month_before utc_days_before mid_august
       small_portfolio) = 100%Q.
Proof. vm_compute. reflexivity. Qed.

(** An agent that the parser does not know, without Accept-Language, is
    stored as a desktop that speaks [unknown]. *)
Lemma unknown_agent_is_a_desktop :
  let e :=
    analyticsSchema (analyticsData sample_parseInt mid_august local_request unknown_agent) in
  a_device e = "desktop" /\ a_device e <> "other" /\
  a_language e = "unknown" /\ a_language e <> "" /\
  a_browser e = "unknown" /\ a_browser e <> "".
Proof. vm_compute. split_and!; (reflexivity || discriminate). Qed.


(** ** Checks of the further properties on concrete inputs *)

Lemma record_all_keeps_counters_witness :
  counters_ok sample_link /\
  counters_ok (record_all sample_geoip utc_midnight sample_qr sample_base
                 two_visitors_twice sample_link).
Proof.
  assert (Hok : counters_ok sample_link) by (unfold counters_ok; simpl; lia).
  split; [exact Hok|].
  exact (record_all_keeps_counters sample_geoip utc_midnight sample_qr sample_base
           two_visitors_twice sample_link Hok).
Defined.

Lemma recordClick_keeps_rollups_witness :
  rollups_ok sample_link /\
  rollups_ok (recordClick sample_geoip utc_midnight sample_qr sample_base mid_august
                (click_from mid_august "10.0.0.1") sample_link).
Proof.
  assert (Hok : rollups_ok sample_link).
  { unfold rollups_ok. simpl. split_and!; [constructor | constructor | reflexivity]. }
  split; [exact Hok|].
  exact (recordClick_keeps_rollups sample_geoip utc_midnight sample_qr sample_base
           mid_august (click_from mid_august "10.0.0.1") sample_link Hok).
Defined.

Lemma getTopFromMaps_keeps_the_largest_witness :
  Exists (fun stat => "FR" ∈ fst <$> countries stat) two_days /\
  let top := getTopFromMaps two_days countries 2 in
  ("FR", total_of countries "FR" two_days) ∈ top \/
  (length top = 2%nat /\ forall e, e ∈ top -> total_of countries "FR" two_days <= e.2).
Proof.
  assert (Hex : Exists (fun stat => "FR" ∈ fst <$> countries stat) two_days).
  { right. left. simpl. right. left. }
  split; [exact Hex|].
  exact (getTopFromMaps_keeps_the_largest two_days countries 2 "FR" Hex).
Defined.

(** The leaderboard of the witness: France, with one click, is off the
    top two. *)
Example top_two_countries :
  getTopFromMaps two_days countries 2 = [("DE", 5); ("US", 3)] /\
  getTopFromMaps two_days countries 10 = [("DE", 5); ("US", 3); ("FR", 1)].
Proof. split; reflexivity. Qed.

Lemma one_day_of_clicks_witness :
  two_visitors_twice <> [] /\
  Forall (fun call => utc_midnight call.1 = utc_midnight mid_august) two_visitors_twice /\
  (fun stat => (date stat, day_clicks stat, day_uniqueVisitors stat))
    <$> dailyStats (record_all sample_geoip utc_midnight sample_qr sample_base
                      two_visitors_twice sample_link)
  = [(utc_midnight mid_august, 3, 1)].
Proof.
  assert (Hne : two_visitors_twice <> []) by discriminate.
  assert (Hday : Forall (fun call => utc_midnight call.1 = utc_midnight mid_august)
                   two_visitors_twice)
    by (repeat constructor).
  split_and!; [exact Hne | exact Hday |].
  exact (one_day_of_clicks sample_geoip utc_midnight sample_qr sample_base mid_august
           "https://example.org/" "abc123" None None default_settings
           (utc_midnight mid_august) two_visitors_twice Hne Hday).
Defined.

Lemma dashboard_clickGrowth_is_a_share_witness :
  Forall counters_ok portfolio /\
  (0 <= clickGrowth (stats_summary august_month_before mid_august portfolio) <= 100)%Q.
Proof.
  assert (Hok : Forall counters_ok portfolio)
    by (repeat constructor; simpl; lia).
  split; [exact Hok|].
  exact (dashboard_clickGrowth_is_a_share august_month_before mid_august portfolio Hok).
Defined.

Lemma post_create_refuses_taken_alias_witness :
  small_promo ∈ [small_promo] /\
  exists error,
    SmallModel.post_create http_only one_date mid_august "fresh001" small_promo_body
      [small_promo]
    = (SmallModel.BadRequest error, [small_promo]).
Proof.
  assert (Hin : small_promo ∈ [small_promo]) by left.
  split; [exact Hin|].
  apply (post_create_refuses_taken_alias http_only one_date mid_august "fresh001"
           small_promo_body [small_promo] small_promo Hin).
  - reflexivity.
  - discriminate.
Defined.

Lemma post_create_keeps_shortUrls_distinct_witness :
  NoDup (SmallModel.shortUrl <$> [small_promo]) /\
  NoDup (SmallModel.shortUrl
           <$> (SmallModel.post_create http_only one_date mid_august "fresh001"
                  small_sale_body [small_promo]).2).
Proof.
  assert (Hnd : NoDup (SmallModel.shortUrl <$> [small_promo])) by apply NoDup_singleton.
  split; [exact Hnd|].
  apply (post_create_keeps_shortUrls_distinct http_only one_date mid_august "fresh001"
           small_sale_body [small_promo] Hnd).
Defined.

Lemma post_create_then_click_witness :
  let answer :=
    SmallModel.post_create http_only one_date mid_august "fresh001" small_sale_body
      [small_promo] in
  let url := SmallModel.built mid_august "fresh001" "https://example.org/sale"
               small_sale_body None in
  answer.1 = SmallModel.Created url /\
  (SmallModel.post_click (mid_august + 1000) "sale" None None answer.2).1
  = SmallModel.ClickOk "https://example.org/sale".
Proof.
  intros answer url.
  assert (Hcreated : answer.1 = SmallModel.Created url) by reflexivity.
  split; [exact Hcreated|].
  destruct (post_create_then_click http_only one_date mid_august (mid_august + 1000)
              "fresh001" small_sale_body [small_promo] url None None Hcreated)
    as (_ & _ & Hclick & _).
  exact (Hclick eq_refl).
Defined.

Lemma post_url_refuses_taken_alias_witness :
  expiring_link ∈ [expiring_link] /\ resolves space_trim "promo" expiring_link = true /\
  exists error,
    post_url sample_qr sample_base space_trim http_only one_date mid_august "fresh001"
      promo_body [expiring_link]
    = (UrlRejected error, [expiring_link]).
Proof.
  assert (Hin : expiring_link ∈ [expiring_link]) by left.
  split_and!; [exact Hin | reflexivity |].
  apply (post_url_refuses_taken_alias sample_qr sample_base space_trim http_only one_date
           mid_august "fresh001" "promo" promo_body [expiring_link] expiring_link).
  - reflexivity.
  - discriminate.
  - exact Hin.
  - reflexivity.
Defined.

Lemma post_url_keeps_shortCodes_distinct_witness :
  NoDup (shortCode <$> [expiring_link]) /\
  NoDup (shortCode
           <$> (post_url sample_qr sample_base space_trim http_only one_date mid_august
                  "fresh001" sale_body [expiring_link]).2).
Proof.
  assert (Hnd : NoDup (shortCode <$> [expiring_link])) by apply NoDup_singleton.
  split; [exact Hnd|].
  apply (post_url_keeps_shortCodes_distinct sample_qr sample_base space_trim http_only
           one_date mid_august "fresh001" sale_body [expiring_link] Hnd).
Defined.

Lemma post_url_then_get_shortCode_witness :
  let answer :=
    post_url sample_qr sample_base space_trim http_only one_date mid_august "fresh001"
      sale_body [expiring_link] in
  let url :=
    pre_save sample_qr sample_base mid_august
      (new_Url mid_august "https://example.org/sale" "sale" (Some "sale")
         (Some (mid_august + 86400000)) default_settings) in
  answer.1 = UrlCreated url /\
  (get_shortCode sample_geoip utc_midnight sample_qr sample_base sample_parse
     sample_parseInt space_trim (mid_august + 1000) local_request "sale" answer.2).1
  = (serve sample_geoip utc_midnight sample_qr sample_base sample_parse sample_parseInt
       (mid_august + 1000) local_request url).1.
Proof.
  intros answer url.
  assert (Hcreated : answer.1 = UrlCreated url) by (vm_compute; reflexivity).
  split; [exact Hcreated|].
  assert (Halias : body_customAlias sale_body = Some "sale") by reflexivity.
  assert (Hfull : "sale" <> "") by discriminate.
  apply (post_url_then_get_shortCode sample_geoip utc_midnight sample_qr sample_base
           sample_parse sample_parseInt space_trim http_only one_date mid_august
           (mid_august + 1000) "fresh001" "sale" sale_body [expiring_link] url
           local_request Halias Hfull Hcreated).
Defined.

(** The link of the witness is reached under its alias, with the target
    trimmed. *)
Example sale_link_redirects :
  (get_shortCode sample_geoip utc_midnight sample_qr sample_base sample_parse
     sample_parseInt space_trim (mid_august + 1000) local_request "sale"
     (post_url sample_qr sample_base space_trim http_only one_date mid_august "fresh001"
        sale_body [expiring_link]).2).1
  = Redirect "https://example.org/sale".
Proof. vm_compute. reflexivity. Qed.

(** ** What the collection holds after a request *)


(** At the very instant of its expiry a link is still redirected, but
    the click is not stored: the validator of [expiresAt] rejects the
    save. *)
Example click_at_expiry_is_not_stored :
  serve sample_geoip utc_midnight sample_qr sample_base sample_parse sample_parseInt
    mid_august local_request expiring_link
  = (Redirect "https://example.org/", expiring_link).
Proof. vm_compute. reflexivity. Qed.

(** A [timeOnPage] that does not parse makes the save fail: the visitor
    is redirected and the click is not stored. *)
Example click_with_unparsed_time_is_not_stored :
  serve sample_geoip utc_midnight sample_qr sample_base sample_parse sample_parseInt
    mid_august unparsed_request sample_link
  = (Redirect "https://example.org/", sample_link).
Proof. vm_compute. reflexivity. Qed.

(** Past its expiry a link answers 410, and the collection keeps the
    document as it was: the save that [checkExpiration] starts is
    rejected. *)
Example expired_link_is_left_as_stored :
  get_shortCode sample_geoip utc_midnight sample_qr sample_base sample_parse
    sample_parseInt space_trim (mid_august + 1000) local_request "promo" [expiring_link]
  = (Gone, [expiring_link]).
Proof. vm_compute. reflexivity. Qed.

(** The alias is looked up trimmed: [GET /%20sale%20] reaches the link
    of the alias [sale], and a second link under [' sale '] is
    refused. *)
Example spaced_code_reaches_the_alias :
  let db :=
    (post_url sample_qr sample_base space_trim http_only one_date mid_august "fresh001"
       sale_body [expiring_link]).2 in
  (get_shortCode sample_geoip utc_midnight sample_qr sample_base sample_parse
     sample_parseInt space_trim (mid_august + 1000) local_request " sale " db).1
  = Redirect "https://example.org/sale" /\
  post_url sample_qr sample_base space_trim http_only one_date (mid_august + 1000)
    "fresh002" spaced_sale_body db
  = (UrlRejected "Custom alias already taken", db).
Proof. vm_compute. split; reflexivity. Qed.

(** The click that opens a day is not counted in the entry of the day,
    the second one is. *)
Example first_click_of_a_day :
  let once :=
    recordClick sample_geoip utc_midnight sample_qr sample_base mid_august
      (click_from mid_august "10.0.0.1") sample_link in
  let twice :=
    recordClick sample_geoip utc_midnight sample_qr sample_base (mid_august + 1)
      (click_from (mid_august + 1) "10.0.0.2") once in
  (clicks once, (fun stat => (day_clicks stat, day_uniqueVisitors stat)) <$> dailyStats once)
  = (1, [(0, 0)]) /\
  (clicks twice, (fun stat => (day_clicks stat, day_uniqueVisitors stat)) <$> dailyStats twice)
  = (2, [(1, 1)]).
Proof. vm_compute. split; reflexivity. Qed.

(** After 31 days with a click each, the first day has left the daily
    statistics, and the days that are kept are in order. *)
Example oldest_day_is_evicted :
  date <$> dailyStats (record_all sample_geoip utc_midnight sample_qr sample_base
                         a_click_a_day sample_link)
  = (fun i : nat => utc_midnight (mid_august + Z.of_nat i * 86400000)) <$> seq 1 30.
Proof. vm_compute. reflexivity. Qed.

(** With one link older than a month and two links now, the small
    summary reports a growth of [100]. *)
Lemma growth_of_the_summaries_witness :
  let s :=
    SmallModel.stats_summary august_month_before utc_days_before mid_august
      small_portfolio in
  length (List.filter (fun u => SmallModel.createdAt u <=? august_month_before mid_august)
            small_portfolio) = 1%nat /\
  SmallModel.totalUrls s = 2 /\
  SmallModel.urlsGrowth s = 100%Q.
Proof.
  intros s.
  assert (Hone : length (List.filter
                           (fun u => SmallModel.createdAt u <=? august_month_before mid_august)
                           small_portfolio) = 1%nat) by reflexivity.
  assert (Htwo : SmallModel.totalUrls s = 2) by reflexivity.
  split_and!; [exact Hone | exact Htwo |].
  destruct (growth_of_the_summaries utc_days_before august_month_before mid_august
              small_portfolio portfolio) as (_ & _ & Hdouble & _).
  exact (Hdouble Hone Htwo).
Defined.
